(** * validation_utils: range, password, colour, length and character-set checks

    A shallow embedding of [validation_utils.py] and the properties its
    specification states about it.

    Layout of the development:
    - [Number]: Python's [int | float] values and their rich comparisons;
    - [Text]: Python [str] values as sequences of code points;
    - [re]: the fragment of the [re] module the validators use;
    - the six functions of the module, typed as their annotations say;
    - [Dyn]: the same six functions over untyped objects, in a monad with
      exceptions and an ambient interpreter state;
    - [sre_parse] and [ReCache]: the parser of patterns and the pattern
      cache of [re], with the two validators that go through it;
    - the theorems. *)

From Stdlib Require Import ZArith NArith List Bool Lia String Ascii.
From Stdlib Require Import Floats.SpecFloat.
Import ListNotations.

Local Open Scope Z_scope.

(* ================================================================= *)
(** ** Numbers *)

Module Number.

(** IEEE 754 binary64, the format of a Python [float]. *)
Definition prec : Z := 53.
Definition emax : Z := 1024.

(** A value of type [int | float].  [bool] is a subclass of [int], so
    [True] and [False] are admissible arguments and are kept apart from the
    plain integers: the functions hand their arguments back unchanged. *)
Inductive number : Type :=
| PyInt (z : Z)
| PyBool (b : bool)
| PyFloat (f : spec_float).

(** Floats are well formed when they are representable in binary64;
    integers are unbounded. *)
Definition wf_number (n : number) : Prop :=
  match n with
  | PyFloat f => valid_binary prec emax f = true
  | _ => True
  end.

Definition is_nan (n : number) : bool :=
  match n with
  | PyFloat S754_nan => true
  | _ => false
  end.

(** The numeric tower as the comparison code sees it: an exact integer or a
    double. *)
Inductive numview : Type :=
| AsInt (z : Z)
| AsFloat (f : spec_float).

Definition view (n : number) : numview :=
  match n with
  | PyInt z => AsInt z
  | PyBool b => AsInt (Z.b2z b)
  | PyFloat f => AsFloat f
  end.

(** Comparison of an integer with a double.  Python compares the two
    exactly, without rounding the integer to a double first. *)
Definition Zcompare_float (x : Z) (f : spec_float) : option comparison :=
  match f with
  | S754_nan => None
  | S754_infinity s => Some (if s then Gt else Lt)
  | S754_zero _ => Some (x ?= 0)
  | S754_finite s m e =>
      let sm := cond_Zopp s (Zpos m) in
      Some (if 0 <=? e then x ?= sm * 2 ^ e else x * 2 ^ (- e) ?= sm)
  end.

(** Three-way comparison; [None] when the operands are unordered, which
    happens exactly when one of them is NaN. *)
Definition py_compare (a b : number) : option comparison :=
  match view a, view b with
  | AsInt x, AsInt y => Some (x ?= y)
  | AsInt x, AsFloat g => Zcompare_float x g
  | AsFloat f, AsInt y => option_map CompOpp (Zcompare_float y f)
  | AsFloat f, AsFloat g => SFcompare f g
  end.

(** The rich comparison operators [<], [<=], [>], [>=], [==]. *)
Definition py_lt (a b : number) : bool :=
  match py_compare a b with Some Lt => true | _ => false end.
Definition py_le (a b : number) : bool :=
  match py_compare a b with Some (Lt | Eq) => true | _ => false end.
Definition py_gt (a b : number) : bool :=
  match py_compare a b with Some Gt => true | _ => false end.
Definition py_ge (a b : number) : bool :=
  match py_compare a b with Some (Gt | Eq) => true | _ => false end.
Definition py_eq (a b : number) : bool :=
  match py_compare a b with Some Eq => true | _ => false end.

(** The builtins [min(a, b)] and [max(a, b)]: the first argument is kept
    unless the second one is strictly smaller (resp. strictly larger). *)
Definition py_min (a b : number) : number := if py_lt b a then b else a.
Definition py_max (a b : number) : number := if py_gt b a then b else a.

(** *** The mathematical value of a number

    Every finite binary64 value is an integer multiple of [2 ^ -1074], and
    so is every integer.  [exact] gives the value of a number in that unit,
    extended with the two infinities; NaN has no value. *)
Inductive xint : Type :=
| NegInf
| Fin (z : Z)
| PosInf.

Definition unit_exp : Z := 1074.

Definition exact (n : number) : option xint :=
  match view n with
  | AsInt x => Some (Fin (x * 2 ^ unit_exp))
  | AsFloat S754_nan => None
  | AsFloat (S754_infinity s) => Some (if s then NegInf else PosInf)
  | AsFloat (S754_zero _) => Some (Fin 0)
  | AsFloat (S754_finite s m e) =>
      Some (Fin (cond_Zopp s (Zpos m) * 2 ^ (e + unit_exp)))
  end.

Definition xcompare (x y : xint) : comparison :=
  match x, y with
  | NegInf, NegInf => Eq
  | NegInf, _ => Lt
  | _, NegInf => Gt
  | PosInf, PosInf => Eq
  | PosInf, _ => Gt
  | _, PosInf => Lt
  | Fin a, Fin b => a ?= b
  end.

(** Comparison by value; unordered when a value is missing. *)
Definition compare_exact (a b : number) : option comparison :=
  match exact a, exact b with
  | Some x, Some y => Some (xcompare x y)
  | _, _ => None
  end.

(** The order and equality of numbers by value. *)
Definition num_rel (c : comparison) (a b : number) : Prop :=
  exists x y, exact a = Some x /\ exact b = Some y /\ xcompare x y = c.

Definition num_lt (a b : number) : Prop := num_rel Lt a b.
Definition num_eq (a b : number) : Prop := num_rel Eq a b.
Definition num_le (a b : number) : Prop := num_lt a b \/ num_eq a b.

End Number.

Export Number.

(* ================================================================= *)
(** ** The range utilities *)

(** [clamp(value, min_value, max_value)]:
    [return max(min_value, min(value, max_value))]. *)
Definition clamp (value min_value max_value : number) : number :=
  py_max min_value (py_min value max_value).

(** [is_in_range(value, min_val, max_val, inclusive=True)].  A chained
    comparison [a <= b <= c] is [a <= b and b <= c]. *)
Definition is_in_range (value min_val max_val : number) (inclusive : bool)
  : bool :=
  if inclusive
  then py_le min_val value && py_le value max_val
  else py_lt min_val value && py_lt value max_val.

(* ================================================================= *)
(** ** Text *)

Module Text.

(** A [str] is a sequence of Unicode code points. *)
Definition char : Type := N.
Definition str : Type := list char.

Definition chr (a : ascii) : char := N_of_ascii a.
Definition of_string (s : string) : str := map chr (list_ascii_of_string s).

(** [len(s)] *)
Definition len (s : str) : Z := Z.of_nat (List.length s).

(** [s.startswith(p)] *)
Fixpoint startswith (s p : str) : bool :=
  match p, s with
  | [], _ => true
  | _ :: _, [] => false
  | c :: p', d :: s' => (c =? d)%N && startswith s' p'
  end.

(** [needle in hay] on two strings is the substring test. *)
Fixpoint contains (hay needle : str) : bool :=
  startswith hay needle ||
  match hay with
  | [] => false
  | _ :: hay' => contains hay' needle
  end.

(** Iterating over a string yields its characters, each as a string of
    length one. *)
Definition iter (s : str) : list str := map (fun c => [c]) s.

End Text.

Export Text.

(* ================================================================= *)
(** ** The [re] module *)

Module re.

(** Members of a character set [[...]]. *)
Inductive set_item : Type :=
| RANGE (lo hi : char)
| CATEGORY (member : char -> bool).

(** Parsed patterns, for the constructs the validators use. *)
Inductive pattern : Type :=
| AT_BEGINNING                                  (* ^ *)
| AT_END                                        (* $ *)
| LITERAL (c : char)
| IN (items : list set_item)                    (* [...] and \d *)
| CAT (p q : pattern)                           (* p followed by q *)
| MAX_REPEAT (lo hi : nat) (p : pattern).       (* p{lo,hi}, greedy *)

Definition in_item (c : char) (i : set_item) : bool :=
  match i with
  | RANGE lo hi => ((lo <=? c) && (c <=? hi))%N
  | CATEGORY member => member c
  end.

Definition in_set (items : list set_item) (c : char) : bool :=
  existsb (in_item c) items.

Definition newline : char := 10%N.

(** [exec p pos s k] matches [p] against [s], the part of the subject that
    starts at index [pos], and passes the position and remainder after the
    match to the continuation [k].  The answer is the end of the first
    match found in backtracking order, longest repetition first.

    Without flags, [^] holds at index 0 only, and [$] holds at the end of
    the subject and just before a newline that is its last character. *)
Fixpoint exec (p : pattern) (pos : nat) (s : str)
    (k : nat -> str -> option nat) {struct p} : option nat :=
  match p with
  | AT_BEGINNING => if (pos =? 0)%nat then k pos s else None
  | AT_END =>
      match s with
      | [] => k pos s
      | [c] => if (c =? newline)%N then k pos s else None
      | _ => None
      end
  | LITERAL c =>
      match s with
      | d :: s' => if (d =? c)%N then k (S pos) s' else None
      | [] => None
      end
  | IN items =>
      match s with
      | d :: s' => if in_set items d then k (S pos) s' else None
      | [] => None
      end
  | CAT p1 p2 => exec p1 pos s (fun pos' s' => exec p2 pos' s' k)
  | MAX_REPEAT lo hi p0 =>
      (fix rep (lo hi pos : nat) (s : str)
           (k : nat -> str -> option nat) {struct hi} : option nat :=
         match hi with
         | O => match lo with O => k pos s | S _ => None end
         | S hi' =>
             match lo with
             | S lo' => exec p0 pos s (fun pos' s' => rep lo' hi' pos' s' k)
             | O =>
                 match exec p0 pos s (fun pos' s' => rep O hi' pos' s' k) with
                 | Some e => Some e
                 | None => k pos s
                 end
             end
         end) lo hi pos s k
  end.

(** A match object: the span of the match. *)
Definition Match : Type := (nat * nat)%type.

Definition match_at (p : pattern) (pos : nat) (s : str) : option Match :=
  option_map (fun e => (pos, e)) (exec p pos s (fun e _ => Some e)).

(** [re.match(pattern, string)]: a match at the beginning of the string. *)
Definition match_ (p : pattern) (s : str) : option Match := match_at p 0 s.

(** [re.search(pattern, string)]: the first position where the pattern
    matches, the end of the string included. *)
Fixpoint search_from (p : pattern) (pos : nat) (s : str) : option Match :=
  match match_at p pos s with
  | Some m => Some m
  | None =>
      match s with
      | [] => None
      | _ :: s' => search_from p (S pos) s'
      end
  end.

Definition search (p : pattern) (s : str) : option Match := search_from p 0 s.

(** Truth value of the result of a match: a match object is true, [None]
    is false. *)
Definition truth (m : option Match) : bool :=
  match m with Some _ => true | None => false end.

End re.

(* ================================================================= *)
(** ** The text validators *)

Section Password.

(** Membership of a code point in the Unicode category Nd, which the
    class [\d] of a [str] pattern denotes.  The table belongs to the
    interpreter's Unicode database. *)
Variable unicode_isdecimal : char -> bool.

(** [r'[A-Z]'] *)
Definition uppercase_pattern : re.pattern :=
  re.IN [re.RANGE (chr "A") (chr "Z")].

(** [r'\d'] *)
Definition digit_pattern : re.pattern :=
  re.IN [re.CATEGORY unicode_isdecimal].

(** [is_valid_password(password, min_length=8, require_number=True,
    require_uppercase=True)] *)
Definition is_valid_password (password : str) (min_length : Z)
    (require_number require_uppercase : bool) : bool :=
  if len password <? min_length then false
  else if require_uppercase &&
          negb (re.truth (re.search uppercase_pattern password)) then false
  else if require_number &&
          negb (re.truth (re.search digit_pattern password)) then false
  else true.

End Password.

(** The defaults of [is_valid_password]. *)
Definition default_min_length : Z := 8.
Definition default_require_number : bool := true.
Definition default_require_uppercase : bool := true.

(** [[0-9a-fA-F]] *)
Definition hex_digit_set : list re.set_item :=
  [re.RANGE (chr "0") (chr "9");
   re.RANGE (chr "a") (chr "f");
   re.RANGE (chr "A") (chr "F")].

(** [r'^#(?:[0-9a-fA-F]{3}){1,2}$'] *)
Definition hex_color_pattern : re.pattern :=
  re.CAT re.AT_BEGINNING
    (re.CAT (re.LITERAL (chr "#"))
       (re.CAT
          (re.MAX_REPEAT 1 2 (re.MAX_REPEAT 3 3 (re.IN hex_digit_set)))
          re.AT_END)).

(** [is_valid_hex_color(color)]:
    [return bool(re.match(pattern, color))]. *)
Definition is_valid_hex_color (color : str) : bool :=
  re.truth (re.match_ hex_color_pattern color).

(** [validate_length(text, min_length=0, max_length=None)] *)
Definition validate_length (text : str) (min_length : Z)
    (max_length : option Z) : bool :=
  if len text <? min_length then false
  else
    match max_length with
    | Some n => if len text >? n then false else true
    | None => true
    end.

(** [contains_only_allowed_chars(text, allowed_chars)]:
    [return all(char in allowed_chars for char in text)]. *)
Definition contains_only_allowed_chars (text allowed_chars : str) : bool :=
  forallb (fun char => contains allowed_chars char) (iter text).

(* ================================================================= *)
(** ** The character classes and colour codes of the specification *)

(** An uppercase letter [A-Z]. *)
Definition ascii_uppercase (c : char) : Prop := (65 <= c <= 90)%N.

(** A decimal digit, by the table of the interpreter. *)
Definition decimal_digit (unicode_isdecimal : char -> bool) (c : char)
  : Prop :=
  unicode_isdecimal c = true.

(** A hexadecimal digit: [0-9], [a-f] or [A-F]. *)
Definition hex_digit (c : char) : Prop :=
  (48 <= c <= 57 \/ 97 <= c <= 102 \/ 65 <= c <= 70)%N.

(** A hex colour code as the specification words it: exactly a [#]
    followed by three or six hexadecimal digits, with nothing before or
    after. *)
Definition hex_color (s : str) : Prop :=
  exists digits,
    s = chr "#" :: digits /\
    (List.length digits = 3 \/ List.length digits = 6)%nat /\
    Forall hex_digit digits.

(* ================================================================= *)
(** ** The functions over untyped objects

    Python checks no annotation at run time: the functions accept any
    object, and an operation applied to an object that does not support it
    raises [TypeError].  This layer embeds the six functions as the
    interpreter runs them, in a monad that carries the exception and the
    state of the interpreter outside the arguments.  The calls to [re] are
    taken by their results here; the pattern cache they go through is the
    subject of [ReCache] below. *)

Module Dyn.

(** The objects of interest: [None], numbers, strings and match objects. *)
Inductive object : Type :=
| None_
| Num (n : number)
| Str (s : str)
| MatchObj (m : re.Match).

Definition Bool (b : bool) : object := Num (PyBool b).
Definition Int (z : Z) : object := Num (PyInt z).

Inductive exn : Type :=
| TypeError
| ReError.        (* re.error *)

Inductive outcome (A : Type) : Type :=
| Return (a : A)
| Raise (e : exn).

Arguments Return {A} a.
Arguments Raise {A} e.

(** The types of the annotations. *)
Inductive ty : Type :=
| TInt            (* int *)
| TNumber         (* int | float *)
| TBool           (* bool *)
| TStr            (* str *)
| TOptionalInt.   (* int, or None *)

Definition has_type (o : object) (t : ty) : Prop :=
  match t, o with
  | TInt, Num (PyInt _) | TInt, Num (PyBool _) => True
  | TNumber, Num _ => True
  | TBool, Num (PyBool _) => True
  | TStr, Str _ => True
  | TOptionalInt, None_ => True
  | TOptionalInt, Num (PyInt _) | TOptionalInt, Num (PyBool _) => True
  | _, _ => False
  end.

(** An [int] argument as an integer, and an optional one. *)
Definition int_value (n : number) : option Z :=
  match n with
  | PyInt z => Some z
  | PyBool b => Some (Z.b2z b)
  | PyFloat _ => None
  end.

Definition optional_int (o : object) (z : option Z) : Prop :=
  match o, z with
  | None_, None => True
  | Num n, Some x => int_value n = Some x
  | _, _ => False
  end.

(** Truth value of an object. *)
Definition truth (o : object) : bool :=
  match o with
  | None_ => false
  | Num (PyInt z) => negb (z =? 0)
  | Num (PyBool b) => b
  | Num (PyFloat (S754_zero _)) => false
  | Num (PyFloat _) => true
  | Str s => match s with [] => false | _ :: _ => true end
  | MatchObj _ => true
  end.

(** Strings are ordered lexicographically by code point. *)
Fixpoint str_compare (a b : str) : comparison :=
  match a, b with
  | [], [] => Eq
  | [], _ :: _ => Lt
  | _ :: _, [] => Gt
  | c :: a', d :: b' =>
      match (c ?= d)%N with
      | Eq => str_compare a' b'
      | r => r
      end
  end.

Inductive cmpop : Type := LT | LE | GT | GE.

Definition holds (op : cmpop) (c : option comparison) : bool :=
  match op, c with
  | LT, Some Lt => true
  | LE, Some (Lt | Eq) => true
  | GT, Some Gt => true
  | GE, Some (Gt | Eq) => true
  | _, _ => false
  end.

Section Interp.

(** The state of the interpreter that is not part of the arguments. *)
Context {world : Type}.

Definition M (A : Type) : Type := world -> outcome A * world.

Definition ret {A} (a : A) : M A := fun w => (Return a, w).
Definition raise {A} (e : exn) : M A := fun w => (Raise e, w).
Definition bind {A B} (m : M A) (f : A -> M B) : M B :=
  fun w =>
    match m w with
    | (Return a, w') => f a w'
    | (Raise e, w') => (Raise e, w')
    end.

(** Reading and writing the state; the functions of the module use
    neither. *)
Definition get : M world := fun w => (Return w, w).
Definition put (w' : world) : M unit := fun _ => (Return tt, w').

Notation "x <- m ;; k" := (bind m (fun x => k))
  (at level 100, m at next level, right associativity).

(** [a < b], [a <= b], [a > b], [a >= b]: defined between two numbers and
    between two strings. *)
Definition richcmp (op : cmpop) (a b : object) : M object :=
  match a, b with
  | Num x, Num y => ret (Bool (holds op (py_compare x y)))
  | Str x, Str y => ret (Bool (holds op (Some (str_compare x y))))
  | _, _ => raise TypeError
  end.

(** [min(a, b)] and [max(a, b)] *)
Definition min2 (a b : object) : M object :=
  c <- richcmp LT b a ;; ret (if truth c then b else a).
Definition max2 (a b : object) : M object :=
  c <- richcmp GT b a ;; ret (if truth c then b else a).

(** [len(o)] *)
Definition len_ (o : object) : M object :=
  match o with
  | Str s => ret (Int (len s))
  | _ => raise TypeError
  end.

(** The results of [re.search(p, o)] and [re.match(p, o)] for a compiled
    pattern [p]; the compilation and its cache are in [ReCache]. *)
Definition of_match (m : option re.Match) : object :=
  match m with Some m => MatchObj m | None => None_ end.

Definition re_search (p : re.pattern) (o : object) : M object :=
  match o with
  | Str s => ret (of_match (re.search p s))
  | _ => raise TypeError
  end.

Definition re_match (p : re.pattern) (o : object) : M object :=
  match o with
  | Str s => ret (of_match (re.match_ p s))
  | _ => raise TypeError
  end.

(** [iter(o)], run to the end *)
Definition iter_ (o : object) : M (list object) :=
  match o with
  | Str s => ret (map Str (iter s))
  | _ => raise TypeError
  end.

(** [item in container] *)
Definition contains_ (container item : object) : M object :=
  match container, item with
  | Str hay, Str needle => ret (Bool (contains hay needle))
  | _, _ => raise TypeError
  end.

(** [all(char in allowed_chars for char in chars)]: stops at the first
    false element. *)
Fixpoint all_in (chars : list object) (allowed_chars : object) : M object :=
  match chars with
  | [] => ret (Bool true)
  | char :: rest =>
      b <- contains_ allowed_chars char ;;
      if truth b then all_in rest allowed_chars else ret (Bool false)
  end.

Definition is_not_none (o : object) : bool :=
  match o with None_ => false | _ => true end.

(** *** The six functions *)

Definition clamp (value min_value max_value : object) : M object :=
  m <- min2 value max_value ;;
  max2 min_value m.

Variable unicode_isdecimal : char -> bool.

Definition is_valid_password
    (password min_length require_number require_uppercase : object)
  : M object :=
  n <- len_ password ;;
  short <- richcmp LT n min_length ;;
  if truth short then ret (Bool false) else
  no_upper <- (if truth require_uppercase
               then m <- re_search uppercase_pattern password ;;
                    ret (negb (truth m))
               else ret false) ;;
  if no_upper then ret (Bool false) else
  no_digit <- (if truth require_number
               then m <- re_search (digit_pattern unicode_isdecimal)
                           password ;;
                    ret (negb (truth m))
               else ret false) ;;
  if no_digit then ret (Bool false) else
  ret (Bool true).

Definition is_valid_hex_color (color : object) : M object :=
  m <- re_match hex_color_pattern color ;;
  ret (Bool (truth m)).

Definition is_in_range (value min_val max_val inclusive : object)
  : M object :=
  if truth inclusive
  then c <- richcmp LE min_val value ;;
       if truth c then richcmp LE value max_val else ret c
  else c <- richcmp LT min_val value ;;
       if truth c then richcmp LT value max_val else ret c.

Definition validate_length (text min_length max_length : object)
  : M object :=
  n <- len_ text ;;
  short <- richcmp LT n min_length ;;
  if truth short then ret (Bool false) else
  long <- (if is_not_none max_length
           then n' <- len_ text ;;
                c <- richcmp GT n' max_length ;;
                ret (truth c)
           else ret false) ;;
  if long then ret (Bool false) else
  ret (Bool true).

Definition contains_only_allowed_chars (text allowed_chars : object)
  : M object :=
  chars <- iter_ text ;;
  all_in chars allowed_chars.

(** A computation that returns a value of type [t] and leaves the state
    alone. *)
Definition returns (t : ty) (m : M object) : Prop :=
  forall w, exists r, m w = (Return r, w) /\ has_type r t.

(** A computation whose outcome does not depend on the state it runs in
    and that leaves that state unchanged. *)
Definition oblivious {A} (m : M A) : Prop :=
  exists o, forall w, m w = (o, w).

(** Two runs of a computation, from any two states, end with the same
    outcome and leave both states as they were. *)
Definition same_outcome {A} (m : M A) (w1 w2 : world) : Prop :=
  fst (m w1) = fst (m w2) /\ snd (m w1) = w1 /\ snd (m w2) = w2.

End Interp.

End Dyn.

(* ================================================================= *)
(** ** The parser of patterns

    [re.match] and [re.search] take the pattern as text and compile it.
    This is the parser for the part of the pattern syntax that the module
    uses: [^], [$], plain characters, [\d], sets of ranges [[a-z...]],
    groups [(?:...)] and counted repetitions [{m}] and [{m,n}].  [None]
    stands for a pattern that is malformed or outside that part. *)

Module sre_parse.

Section Parser.

Variable unicode_isdecimal : char -> bool.

Definition is_digit (c : char) : bool := ((48 <=? c) && (c <=? 57))%N.

(** The characters with a meaning of their own in a pattern. *)
Definition special (c : char) : bool :=
  existsb (N.eqb c) (of_string ".^$*+?{}[]\|()").

(** A decimal number, of one digit at least. *)
Fixpoint number_from (s : str) (acc : nat) : nat * str :=
  match s with
  | c :: s' =>
      if is_digit c
      then number_from s' (10 * acc + N.to_nat (c - 48))%nat
      else (acc, s)
  | [] => (acc, s)
  end.

Definition number (s : str) : option (nat * str) :=
  match s with
  | c :: _ => if is_digit c then Some (number_from s 0%nat) else None
  | [] => None
  end.

(** The ranges of a set, up to the closing bracket. *)
Fixpoint set_items (s : str) (acc : list re.set_item)
  : option (list re.set_item * str) :=
  match s with
  | [] => None
  | c :: s1 =>
      if (c =? chr "]")%N then
        match acc with
        | [] => None
        | _ :: _ => Some (rev acc, s1)
        end
      else if special c || (c =? chr "-")%N then None
      else
        match s1 with
        | d :: e :: s2 =>
            if (d =? chr "-")%N && negb (special e) && (c <=? e)%N
            then set_items s2 (re.RANGE c e :: acc)
            else None
        | _ => None
        end
  end.

(** A counted repetition after an item, if there is one. *)
Definition repeat_suffix (p : re.pattern) (s : str)
  : option (re.pattern * str) :=
  match s with
  | c :: s1 =>
      if (c =? chr "{")%N then
        match p with
        | re.AT_BEGINNING | re.AT_END => None
        | _ =>
            match number s1 with
            | Some (lo, d :: s3) =>
                if (d =? chr "}")%N then Some (re.MAX_REPEAT lo lo p, s3)
                else if (d =? chr ",")%N then
                  match number s3 with
                  | Some (hi, e :: s5) =>
                      if (e =? chr "}")%N && (lo <=? hi)%nat
                      then Some (re.MAX_REPEAT lo hi p, s5)
                      else None
                  | _ => None
                  end
                else None
            | _ => None
            end
        end
      else if existsb (N.eqb c) (of_string "*+?") then None
      else Some (p, s)
  | [] => Some (p, s)
  end.

(** A sequence of items as one pattern. *)
Fixpoint sequence (ps : list re.pattern) : option re.pattern :=
  match ps with
  | [] => None
  | [p] => Some p
  | p :: ps' => option_map (re.CAT p) (sequence ps')
  end.

(** The items up to the end of the text or to a closing parenthesis. *)
Fixpoint items (fuel : nat) (s : str) : option (list re.pattern * str) :=
  match fuel with
  | O => None
  | S fuel' =>
      match s with
      | [] => Some ([], [])
      | c :: s1 =>
          if (c =? chr ")")%N then Some ([], s)
          else
            let atom : option (re.pattern * str) :=
              if (c =? chr "^")%N then Some (re.AT_BEGINNING, s1)
              else if (c =? chr "$")%N then Some (re.AT_END, s1)
              else if (c =? chr "\")%N then
                match s1 with
                | d :: s2 =>
                    if (d =? chr "d")%N
                    then Some (re.IN [re.CATEGORY unicode_isdecimal], s2)
                    else None
                | [] => None
                end
              else if (c =? chr "[")%N then
                match set_items s1 [] with
                | Some (its, s2) => Some (re.IN its, s2)
                | None => None
                end
              else if (c =? chr "(")%N then
                match s1 with
                | q :: k :: s2 =>
                    if (q =? chr "?")%N && (k =? chr ":")%N then
                      match items fuel' s2 with
                      | Some (ps, r :: s3) =>
                          if (r =? chr ")")%N then
                            match sequence ps with
                            | Some p => Some (p, s3)
                            | None => None
                            end
                          else None
                      | _ => None
                      end
                    else None
                | _ => None
                end
              else if special c then None
              else Some (re.LITERAL c, s1)
            in
            match atom with
            | None => None
            | Some (p, s2) =>
                match repeat_suffix p s2 with
                | None => None
                | Some (p', s3) =>
                    match items fuel' s3 with
                    | Some (ps, rest) => Some (p' :: ps, rest)
                    | None => None
                    end
                end
            end
      end
  end.

Definition parse (source : str) : option re.pattern :=
  match items (S (List.length source)) source with
  | Some (ps, []) => sequence ps
  | _ => None
  end.

End Parser.

End sre_parse.

(* ================================================================= *)
(** ** The pattern cache of the [re] module

    [re.match(pattern, string)] is [_compile(pattern, flags).match(string)],
    and [re.search] likewise.  [_compile] keeps the compiled patterns in
    the module-level dictionary [_cache]: it returns the entry of the
    pattern when there is one, and otherwise compiles the pattern, drops
    the oldest entry if the cache is full and appends the new one.  In
    this layer the state of the interpreter is that cache, and the two
    validators that use [re] are embedded with their calls going through
    it.  The four other functions call nothing of the kind: they are the
    functions of [Dyn], run in this state. *)

Module ReCache.

(** An entry per pattern text; the patterns here are all of type [str]
    and compiled without flags. *)
Definition cache : Type := list (str * re.pattern).

Definition MAXCACHE : nat := 512.

Fixpoint str_eqb (a b : str) : bool :=
  match a, b with
  | [], [] => true
  | c :: a', d :: b' => (c =? d)%N && str_eqb a' b'
  | _, _ => false
  end.

(** [_cache[key]] *)
Fixpoint lookup (key : str) (c : cache) : option re.pattern :=
  match c with
  | [] => None
  | (k, p) :: c' => if str_eqb k key then Some p else lookup key c'
  end.

(** The three pattern literals of the module. *)
Definition uppercase_source : str := of_string "[A-Z]".
Definition digit_source : str := of_string "\d".
Definition hex_color_source : str :=
  of_string "^#(?:[0-9a-fA-F]{3}){1,2}$".

Section Compile.

(** [_compiler.compile]: the compiled pattern, or [None] when the text is
    not a pattern and [re.error] is raised. *)
Variable compile : str -> option re.pattern.

(** A cache that holds what [_compile] stored: under every pattern text,
    that text compiled. *)
Definition consistent (c : cache) : Prop :=
  Forall (fun entry => compile (fst entry) = Some (snd entry)) c.

Notation "x <- m ;; k" := (Dyn.bind m (fun x => k))
  (at level 100, m at next level, right associativity).

(** [_compile(pattern, flags)] for a pattern text and no flags: the cached
    entry if there is one; otherwise the pattern is compiled, which may
    raise [re.error], the oldest entry is dropped from a full cache and the
    new entry is appended. *)
Definition _compile (source : str) : @Dyn.M cache re.pattern :=
  c <- Dyn.get ;;
  match lookup source c with
  | Some p => Dyn.ret p
  | None =>
      match compile source with
      | None => Dyn.raise Dyn.ReError
      | Some p =>
          let c' := if (MAXCACHE <=? List.length c)%nat then tl c else c in
          _ <- Dyn.put (c' ++ [(source, p)]) ;;
          Dyn.ret p
      end
  end.

(** [re.search(source, o)] and [re.match(source, o)] *)
Definition re_search (source : str) (o : Dyn.object)
  : @Dyn.M cache Dyn.object :=
  p <- _compile source ;;
  match o with
  | Dyn.Str s => Dyn.ret (Dyn.of_match (re.search p s))
  | _ => Dyn.raise Dyn.TypeError
  end.

Definition re_match (source : str) (o : Dyn.object)
  : @Dyn.M cache Dyn.object :=
  p <- _compile source ;;
  match o with
  | Dyn.Str s => Dyn.ret (Dyn.of_match (re.match_ p s))
  | _ => Dyn.raise Dyn.TypeError
  end.

Definition is_valid_password
    (password min_length require_number require_uppercase : Dyn.object)
  : @Dyn.M cache Dyn.object :=
  n <- Dyn.len_ password ;;
  short <- Dyn.richcmp Dyn.LT n min_length ;;
  if Dyn.truth short then Dyn.ret (Dyn.Bool false) else
  no_upper <- (if Dyn.truth require_uppercase
               then m <- re_search uppercase_source password ;;
                    Dyn.ret (negb (Dyn.truth m))
               else Dyn.ret false) ;;
  if no_upper then Dyn.ret (Dyn.Bool false) else
  no_digit <- (if Dyn.truth require_number
               then m <- re_search digit_source password ;;
                    Dyn.ret (negb (Dyn.truth m))
               else Dyn.ret false) ;;
  if no_digit then Dyn.ret (Dyn.Bool false) else
  Dyn.ret (Dyn.Bool true).

Definition is_valid_hex_color (color : Dyn.object)
  : @Dyn.M cache Dyn.object :=
  m <- re_match hex_color_source color ;;
  Dyn.ret (Dyn.Bool (Dyn.truth m)).

(** A computation in this layer follows one of [Dyn] when, run in a
    consistent cache, it ends with the outcome of the other and leaves the
    cache consistent. *)
Definition follows {A} (m : @Dyn.M cache A) (d : @Dyn.M unit A) : Prop :=
  forall w, consistent w ->
    fst (m w) = fst (d tt) /\ consistent (snd (m w)).

(** Two runs that end with the same outcome, each in a cache that is
    consistent again. *)
Definition same_result {A} (m : @Dyn.M cache A) (w1 w2 : cache) : Prop :=
  fst (m w1) = fst (m w2) /\
  consistent (snd (m w1)) /\ consistent (snd (m w2)).

End Compile.

End ReCache.

(* ================================================================= *)
(** * Properties *)

Section CompareLaws.

Lemma SFcompare_antisym f g :
  SFcompare g f = option_map CompOpp (SFcompare f g).
Proof.
  destruct f as [s|s| |s m e], g as [s'|s'| |s' m' e']; simpl;
    try reflexivity;
    try (destruct s; reflexivity); try (destruct s'; reflexivity);
    try (destruct s, s'; reflexivity).
  destruct s, s'; try reflexivity;
    rewrite (Z.compare_antisym e e');
    destruct (e ?= e'); simpl; try reflexivity;
    rewrite !Pos.compare_cont_spec; simpl;
    rewrite (Pos.compare_antisym m m');
    destruct (m ?= m')%positive; reflexivity.
Qed.

(** Swapping the operands of a comparison mirrors its outcome. *)
Lemma py_compare_antisym a b :
  py_compare b a = option_map CompOpp (py_compare a b).
Proof.
  unfold py_compare.
  destruct (view a) as [x|f], (view b) as [y|g]; simpl.
  - now rewrite (Z.compare_antisym x y).
  - reflexivity.
  - destruct (Zcompare_float y f) as [[]|]; reflexivity.
  - apply SFcompare_antisym.
Qed.

End CompareLaws.

Section ExactValue.

(** [digits2_pos m] is the bit length of [m]. *)
Lemma digits2_pos_bounds m :
  2 ^ (Zpos (digits2_pos m) - 1) <= Zpos m < 2 ^ Zpos (digits2_pos m).
Proof.
  induction m as [p IH|p IH|]; simpl digits2_pos.
  - rewrite Pos2Z.inj_succ. change (Zpos p~1) with (2 * Zpos p + 1).
    replace (Z.succ (Zpos (digits2_pos p)) - 1)
      with (Z.succ (Zpos (digits2_pos p) - 1)) by lia.
    rewrite !Z.pow_succ_r by lia.
    generalize dependent (2 ^ (Zpos (digits2_pos p) - 1)).
    generalize (2 ^ Zpos (digits2_pos p)). intros; lia.
  - rewrite Pos2Z.inj_succ. change (Zpos p~0) with (2 * Zpos p).
    replace (Z.succ (Zpos (digits2_pos p)) - 1)
      with (Z.succ (Zpos (digits2_pos p) - 1)) by lia.
    rewrite !Z.pow_succ_r by lia.
    generalize dependent (2 ^ (Zpos (digits2_pos p) - 1)).
    generalize (2 ^ Zpos (digits2_pos p)). intros; lia.
  - simpl. lia.
Qed.

(** What [valid_binary] says about the mantissa and exponent of a finite
    double: the exponent is in range and the mantissa has at most 53 bits,
    exactly 53 unless the number is subnormal. *)
Lemma bounded_inv m e :
  bounded prec emax m e = true ->
  - unit_exp <= e <= 971 /\
  Zpos m < 2 ^ 53 /\
  (- unit_exp < e -> 2 ^ 52 <= Zpos m).
Proof.
  unfold bounded, canonical_mantissa, fexp, emin, prec, emax, unit_exp.
  intro H. apply andb_true_iff in H. destruct H as [Hc Hb].
  apply Z.eqb_eq in Hc. apply Z.leb_le in Hb.
  pose proof (digits2_pos_bounds m) as Hd.
  set (d := Zpos (digits2_pos m)) in *.
  assert (Hd53 : d <= 53) by lia.
  split; [lia|]. split.
  - apply Z.lt_le_trans with (2 ^ d); [apply Hd|].
    apply Z.pow_le_mono_r; lia.
  - intro He. assert (d = 53) by lia.
    replace 52 with (d - 1) by lia. apply Hd.
Qed.

Lemma mul_compare_mono_r p n m : 0 < p -> (n * p ?= m * p) = (n ?= m).
Proof. intro Hp. symmetry. apply Zmult_compare_compat_r. lia. Qed.

Lemma pow2_split a b : 0 <= a -> 0 <= b -> 2 ^ (a + b) = 2 ^ a * 2 ^ b.
Proof. intros. now apply Z.pow_add_r. Qed.

(** Doubles of the same sign are ordered by exponent first: a larger
    exponent means a larger magnitude. *)
Lemma finite_lt_by_exponent m1 e1 m2 e2 :
  bounded prec emax m1 e1 = true ->
  bounded prec emax m2 e2 = true ->
  e1 < e2 ->
  Zpos m1 * 2 ^ (e1 + unit_exp) < Zpos m2 * 2 ^ (e2 + unit_exp).
Proof.
  intros H1 H2 Hlt.
  apply bounded_inv in H1. apply bounded_inv in H2.
  destruct H1 as [He1 [Hm1 _]]. destruct H2 as [He2 [_ Hm2]].
  specialize (Hm2 ltac:(lia)).
  replace (e2 + unit_exp) with ((e2 - e1) + (e1 + unit_exp)) by lia.
  rewrite (pow2_split (e2 - e1) (e1 + unit_exp)) by lia.
  assert (HP : 0 < 2 ^ (e1 + unit_exp)) by (apply Z.pow_pos_nonneg; lia).
  assert (HQ : 2 ^ 1 <= 2 ^ (e2 - e1)) by (apply Z.pow_le_mono_r; lia).
  change (2 ^ 1) with 2 in HQ.
  change (2 ^ 53) with (2 * 2 ^ 52) in Hm1.
  set (A := 2 ^ 52) in *. set (P := 2 ^ (e1 + unit_exp)) in *.
  set (Q := 2 ^ (e2 - e1)) in *.
  assert (HA : 0 < A) by (unfold A; lia).
  assert (H1 : Zpos m1 * P < 2 * A * P)
    by (apply Z.mul_lt_mono_pos_r; assumption).
  assert (H2 : 2 * P <= Q * P)
    by (apply Z.mul_le_mono_nonneg_r; lia).
  assert (H3 : A * (2 * P) <= Zpos m2 * (Q * P))
    by (apply Z.mul_le_mono_nonneg; lia).
  lia.
Qed.

Lemma scaled_pos m e :
  bounded prec emax m e = true -> 0 < Zpos m * 2 ^ (e + unit_exp).
Proof.
  intro H. apply bounded_inv in H. destruct H as [He _].
  apply Z.mul_pos_pos; [lia|]. apply Z.pow_pos_nonneg; lia.
Qed.

(** On binary64 values the IEEE 754 comparison is the comparison of the
    values. *)
Lemma SFcompare_exact f g :
  valid_binary prec emax f = true ->
  valid_binary prec emax g = true ->
  SFcompare f g = compare_exact (PyFloat f) (PyFloat g).
Proof.
  intros Hf Hg. unfold compare_exact, exact, view.
  destruct f as [s|s| |s m e], g as [s'|s'| |s' m' e'];
    cbn [SFcompare xcompare valid_binary] in *;
    try reflexivity;
    try (destruct s; reflexivity); try (destruct s'; reflexivity);
    try (destruct s, s'; reflexivity).
  - (* zero, finite *)
    pose proof (scaled_pos _ _ Hg) as Hp. f_equal.
    destruct s'; cbn [cond_Zopp]; symmetry.
    + apply Z.compare_gt_iff. lia.
    + apply Z.compare_lt_iff. lia.
  - (* finite, zero *)
    pose proof (scaled_pos _ _ Hf) as Hp. f_equal.
    destruct s; cbn [cond_Zopp]; symmetry.
    + apply Z.compare_lt_iff. lia.
    + apply Z.compare_gt_iff. lia.
  - (* finite, finite *)
    pose proof (scaled_pos _ _ Hf) as Hp.
    pose proof (scaled_pos _ _ Hg) as Hp'.
    f_equal.
    assert (Hsame :
      match e ?= e' with
      | Eq => Pos.compare_cont Eq m m' | Lt => Lt | Gt => Gt
      end = (Zpos m * 2 ^ (e + unit_exp) ?= Zpos m' * 2 ^ (e' + unit_exp))).
    { destruct (Z.compare_spec e e') as [Heq|Hlt|Hgt].
      - subst e'. rewrite Pos.compare_cont_spec.
        rewrite mul_compare_mono_r; [simpl; now destruct (m ?= m')%positive|].
        apply bounded_inv in Hf. apply Z.pow_pos_nonneg; lia.
      - symmetry. apply Z.compare_lt_iff.
        now apply finite_lt_by_exponent.
      - symmetry. apply Z.compare_gt_iff.
        now apply finite_lt_by_exponent. }
    destruct s, s'; cbn [cond_Zopp].
    + rewrite !Z.mul_opp_l, Z.compare_opp.
      rewrite (Z.compare_antisym (Zpos m * _) (Zpos m' * _)), <- Hsame.
      destruct (e ?= e'); reflexivity.
    + symmetry. apply Z.compare_lt_iff. lia.
    + symmetry. apply Z.compare_gt_iff. lia.
    + exact Hsame.
Qed.

(** The comparison of an integer with a binary64 value is the comparison
    of the values. *)
Lemma Zcompare_float_exact x f :
  valid_binary prec emax f = true ->
  Zcompare_float x f = compare_exact (PyInt x) (PyFloat f).
Proof.
  intro Hf. unfold compare_exact, exact, view.
  assert (HU : 0 < 2 ^ unit_exp) by (apply Z.pow_pos_nonneg; unfold unit_exp; lia).
  destruct f as [s|s| |s m e]; cbn [Zcompare_float xcompare valid_binary] in *.
  - f_equal. rewrite <- (mul_compare_mono_r _ x 0 HU). reflexivity.
  - destruct s; reflexivity.
  - reflexivity.
  - f_equal. apply bounded_inv in Hf. destruct Hf as [He _].
    destruct (Z.leb_spec 0 e) as [Hp|Hn].
    + rewrite (pow2_split e unit_exp) by (unfold unit_exp; lia).
      rewrite Z.mul_assoc. now rewrite mul_compare_mono_r.
    + assert (HP : 0 < 2 ^ (e + unit_exp)) by (apply Z.pow_pos_nonneg; lia).
      rewrite <- (mul_compare_mono_r _ (x * 2 ^ (- e)) _ HP).
      rewrite <- Z.mul_assoc, <- pow2_split by lia.
      replace (- e + (e + unit_exp)) with unit_exp by lia.
      reflexivity.
Qed.

Lemma xcompare_antisym x y : xcompare y x = CompOpp (xcompare x y).
Proof.
  destruct x, y; simpl; try reflexivity. apply Z.compare_antisym.
Qed.

Lemma compare_exact_antisym a b :
  compare_exact b a = option_map CompOpp (compare_exact a b).
Proof.
  unfold compare_exact.
  destruct (exact a), (exact b); simpl; try reflexivity.
  now rewrite xcompare_antisym.
Qed.

(** Python's comparison of two well-formed numbers is the comparison of
    their values. *)
Lemma py_compare_exact a b :
  wf_number a -> wf_number b -> py_compare a b = compare_exact a b.
Proof.
  intros Ha Hb. unfold py_compare.
  destruct a as [x|p|f], b as [y|q|g]; cbn [view wf_number] in *;
    try (now apply SFcompare_exact);
    try (now apply (Zcompare_float_exact _ _ Hb));
    try (rewrite (Zcompare_float_exact _ _ Ha);
         symmetry; apply (compare_exact_antisym (PyInt _) (PyFloat f)));
    unfold compare_exact, exact, view; cbn [xcompare]; f_equal;
    symmetry; apply mul_compare_mono_r;
    apply Z.pow_pos_nonneg; unfold unit_exp; lia.
Qed.

End ExactValue.

Section OrderLaws.

Lemma py_compare_irrefl a c : py_compare a a = Some c -> c = Eq.
Proof.
  intro H. pose proof (py_compare_antisym a a) as Ha.
  rewrite H in Ha. destruct c; simpl in Ha; congruence.
Qed.

Lemma py_lt_irrefl a : py_lt a a = false.
Proof.
  unfold py_lt. destruct (py_compare a a) as [c|] eqn:E; [|reflexivity].
  now rewrite (py_compare_irrefl _ _ E).
Qed.

Lemma py_gt_irrefl a : py_gt a a = false.
Proof.
  unfold py_gt. destruct (py_compare a a) as [c|] eqn:E; [|reflexivity].
  now rewrite (py_compare_irrefl _ _ E).
Qed.

Lemma py_gt_lt a b : py_gt a b = py_lt b a.
Proof.
  unfold py_gt, py_lt. rewrite (py_compare_antisym b a).
  destruct (py_compare b a) as [[]|]; reflexivity.
Qed.

Lemma py_lt_asym a b : py_lt a b = true -> py_lt b a = false.
Proof.
  unfold py_lt. rewrite (py_compare_antisym a b).
  destruct (py_compare a b) as [[]|]; simpl; congruence.
Qed.

(** The boolean operators decide the order by value. *)
Lemma py_lt_spec a b :
  wf_number a -> wf_number b -> (py_lt a b = true <-> num_lt a b).
Proof.
  intros Ha Hb. unfold py_lt, num_lt, num_rel.
  rewrite (py_compare_exact a b Ha Hb). unfold compare_exact.
  destruct (exact a) as [x|], (exact b) as [y|]; split;
    try discriminate;
    try (intros (x' & y' & Hx & Hy & _); discriminate).
  - destruct (xcompare x y) eqn:E; try discriminate.
    intros _. now exists x, y.
  - intros (x' & y' & Hx & Hy & Hc).
    injection Hx as <-. injection Hy as <-. now rewrite Hc.
Qed.

Lemma py_eq_spec a b :
  wf_number a -> wf_number b -> (py_eq a b = true <-> num_eq a b).
Proof.
  intros Ha Hb. unfold py_eq, num_eq, num_rel.
  rewrite (py_compare_exact a b Ha Hb). unfold compare_exact.
  destruct (exact a) as [x|], (exact b) as [y|]; split;
    try discriminate;
    try (intros (x' & y' & Hx & Hy & _); discriminate).
  - destruct (xcompare x y) eqn:E; try discriminate.
    intros _. now exists x, y.
  - intros (x' & y' & Hx & Hy & Hc).
    injection Hx as <-. injection Hy as <-. now rewrite Hc.
Qed.

Lemma py_le_lt_eq a b : py_le a b = py_lt a b || py_eq a b.
Proof.
  unfold py_le, py_lt, py_eq.
  destruct (py_compare a b) as [[]|]; reflexivity.
Qed.

Lemma py_le_spec a b :
  wf_number a -> wf_number b -> (py_le a b = true <-> num_le a b).
Proof.
  intros Ha Hb. rewrite py_le_lt_eq, orb_true_iff.
  unfold num_le. now rewrite py_lt_spec, py_eq_spec.
Qed.

Lemma py_gt_spec a b :
  wf_number a -> wf_number b -> (py_gt a b = true <-> num_lt b a).
Proof. intros Ha Hb. rewrite py_gt_lt. now apply py_lt_spec. Qed.

(** Facts about the order by value, on the extended integers. *)
Lemma xcompare_refl x : xcompare x x = Eq.
Proof. destruct x; simpl; try reflexivity. apply Z.compare_refl. Qed.

Lemma xcompare_le_lt_trans x y z :
  xcompare x y <> Gt -> xcompare y z = Lt -> xcompare x z = Lt.
Proof.
  destruct x as [|a|], y as [|b|], z as [|c|]; simpl; intros H1 H2;
    try congruence.
  apply Z.compare_lt_iff.
  change (a <= b) in H1. change (b < c) in H2. lia.
Qed.

Lemma num_lt_irrefl a : ~ num_lt a a.
Proof.
  intros (x & y & Hx & Hy & Hc). rewrite Hx in Hy. injection Hy as <-.
  rewrite xcompare_refl in Hc. discriminate.
Qed.

Lemma num_eq_refl a : is_nan a = false -> num_eq a a.
Proof.
  intro Hn. unfold num_eq, num_rel.
  assert (exists x, exact a = Some x) as [x Hx].
  { unfold exact. destruct a as [z|b|[s|s| |s m e]]; simpl in *;
      try discriminate; eexists; reflexivity. }
  exists x, x. now rewrite Hx, xcompare_refl.
Qed.

Lemma num_rel_not_nan c a b :
  num_rel c a b -> is_nan a = false /\ is_nan b = false.
Proof.
  intros (x & y & Hx & Hy & _). unfold exact in *.
  split; [destruct a as [z|p|[]]|destruct b as [z|p|[]]];
    simpl in *; congruence.
Qed.

Lemma num_le_not_nan a b :
  num_le a b -> is_nan a = false /\ is_nan b = false.
Proof. intros [H|H]; exact (num_rel_not_nan _ _ _ H). Qed.

End OrderLaws.

(* ================================================================= *)
(** ** clamp *)

Ltac split_lt :=
  repeat match goal with
  | |- context [py_lt ?a ?a] => rewrite (py_lt_irrefl a)
  | |- context [if py_lt ?a ?b then _ else _] =>
      destruct (py_lt a b) eqn:?
  end.

Section Clamp.

(** [clamp] written with [<] only. *)
Lemma clamp_unfold v lo hi :
  clamp v lo hi =
  let m := if py_lt hi v then hi else v in
  if py_lt lo m then m else lo.
Proof. unfold clamp, py_max, py_min. now rewrite py_gt_lt. Qed.

(** The result of [clamp] is always one of its three arguments. *)
Lemma clamp_cases v lo hi :
  clamp v lo hi = v \/ clamp v lo hi = lo \/ clamp v lo hi = hi.
Proof. rewrite clamp_unfold. cbv zeta. split_lt; auto. Qed.

Lemma py_lt_false_exact a b x y :
  wf_number a -> wf_number b ->
  exact a = Some x -> exact b = Some y ->
  py_lt a b = false -> xcompare x y <> Lt.
Proof.
  intros Ha Hb Hx Hy H Hc.
  assert (py_lt a b = true) by (apply py_lt_spec; trivial; now exists x, y).
  congruence.
Qed.

Lemma exact_of_not_nan a : is_nan a = false -> exists x, exact a = Some x.
Proof.
  unfold exact. destruct a as [z|b|[s|s| |s m e]]; simpl;
    try discriminate; intros _; eexists; reflexivity.
Qed.

Lemma py_lt_nan_l a b : is_nan a = true -> py_lt a b = false.
Proof.
  destruct a as [z|p|[]]; try discriminate. intros _.
  unfold py_lt, py_compare. simpl.
  destruct (view b) as [y|g]; simpl; [reflexivity|].
  now destruct g.
Qed.

Lemma py_lt_nan_r a b : is_nan b = true -> py_lt a b = false.
Proof.
  destruct b as [z|p|[]]; try discriminate. intros _.
  unfold py_lt, py_compare. simpl.
  destruct (view a) as [y|g]; simpl; [reflexivity|].
  now destruct g.
Qed.

(** A NaN value is clamped to the lower bound. *)
Lemma clamp_nan_value v lo hi : is_nan v = true -> clamp v lo hi = lo.
Proof.
  intro Hn. rewrite clamp_unfold. cbv zeta.
  now rewrite (py_lt_nan_r hi v Hn), (py_lt_nan_r lo v Hn).
Qed.

Lemma clamp_lower v lo hi :
  wf_number v -> wf_number lo -> wf_number hi ->
  num_le lo hi -> num_le lo (clamp v lo hi).
Proof.
  intros Hv Hlo Hhi Hle.
  destruct (num_le_not_nan _ _ Hle) as [Nlo Nhi].
  rewrite clamp_unfold. cbv zeta.
  destruct (py_lt lo (if py_lt hi v then hi else v)) eqn:E.
  - left. apply py_lt_spec; trivial. now destruct (py_lt hi v).
  - right. now apply num_eq_refl.
Qed.

Lemma clamp_upper v lo hi :
  wf_number v -> wf_number lo -> wf_number hi ->
  num_le lo hi -> num_le (clamp v lo hi) hi.
Proof.
  intros Hv Hlo Hhi Hle.
  destruct (num_le_not_nan _ _ Hle) as [Nlo Nhi].
  rewrite clamp_unfold. cbv zeta.
  destruct (py_lt hi v) eqn:A.
  - destruct (py_lt lo hi); [right; now apply num_eq_refl|exact Hle].
  - destruct (py_lt lo v) eqn:B; [|exact Hle].
    apply py_lt_spec in B; trivial.
    destruct B as (xl & xv & Hxl & Hxv & _).
    destruct (exact_of_not_nan _ Nhi) as [xh Hxh].
    pose proof (py_lt_false_exact _ _ _ _ Hhi Hv Hxh Hxv A) as Hc.
    rewrite xcompare_antisym in Hc.
    unfold num_le, num_lt, num_eq, num_rel.
    destruct (xcompare xv xh) eqn:C.
    + right. now exists xv, xh.
    + left. now exists xv, xh.
    + now elim Hc.
Qed.

Lemma clamp_at_lower lo hi :
  py_lt hi lo = false -> clamp lo lo hi = lo.
Proof.
  intro H. rewrite clamp_unfold. cbv zeta. rewrite H.
  now rewrite py_lt_irrefl.
Qed.

Lemma clamp_at_upper lo hi :
  wf_number lo -> wf_number hi ->
  num_le lo hi -> num_eq (clamp hi lo hi) hi.
Proof.
  intros Hlo Hhi Hle.
  destruct (num_le_not_nan _ _ Hle) as [Nlo Nhi].
  rewrite clamp_unfold. cbv zeta. rewrite py_lt_irrefl.
  destruct (py_lt lo hi) eqn:A; [now apply num_eq_refl|].
  destruct Hle as [Hlt|Heq]; [|exact Heq].
  apply py_lt_spec in Hlt; trivial. congruence.
Qed.

Lemma num_le_py_lt_false a b :
  wf_number a -> wf_number b -> num_le a b -> py_lt b a = false.
Proof.
  intros Ha Hb [Hlt|Heq].
  - apply py_lt_asym. now apply py_lt_spec.
  - destruct (py_lt b a) eqn:E; [|reflexivity].
    apply py_lt_spec in E; trivial.
    destruct Heq as (x & y & Hx & Hy & Hc).
    destruct E as (y' & x' & Hy' & Hx' & Hc').
    rewrite Hx in Hx'. rewrite Hy in Hy'.
    injection Hx' as <-. injection Hy' as <-.
    rewrite xcompare_antisym, Hc in Hc'. discriminate.
Qed.

End Clamp.

(** [C2] For well-formed numbers with [lo <= hi], [clamp v lo hi] lies in
    the closed interval from [lo] to [hi]; clamping [lo] gives [lo] back,
    and clamping [hi] gives a number equal to [hi] (Python's [==]). *)
Theorem clamp_in_range v lo hi :
  wf_number v -> wf_number lo -> wf_number hi ->
  num_le lo hi ->
  num_le lo (clamp v lo hi) /\ num_le (clamp v lo hi) hi /\
  clamp lo lo hi = lo /\
  num_eq (clamp lo lo hi) lo /\
  num_eq (clamp hi lo hi) hi.
Proof.
  intros Hv Hlo Hhi Hle.
  assert (Hat : clamp lo lo hi = lo)
    by (apply clamp_at_lower; now apply num_le_py_lt_false).
  repeat split.
  - now apply clamp_lower.
  - now apply clamp_upper.
  - exact Hat.
  - rewrite Hat. apply num_eq_refl. now destruct (num_le_not_nan _ _ Hle).
  - now apply clamp_at_upper.
Qed.

(** [C9] With swapped bounds, [max_value < min_value], [clamp] returns
    [min_value] whatever the value is. *)
Theorem clamp_swapped_bounds v min_value max_value :
  wf_number v -> wf_number min_value -> wf_number max_value ->
  num_lt max_value min_value ->
  clamp v min_value max_value = min_value.
Proof.
  intros Hv Hlo Hhi Hlt.
  rewrite clamp_unfold. cbv zeta.
  destruct (num_rel_not_nan _ _ _ Hlt) as [Nhi Nlo].
  destruct (py_lt max_value v) eqn:A.
  - rewrite py_lt_asym; [reflexivity|]. now apply py_lt_spec.
  - destruct (py_lt min_value v) eqn:B; [|reflexivity]. exfalso.
    apply py_lt_spec in B; trivial.
    destruct B as (xl & xv & Hxl & Hxv & Hc).
    destruct Hlt as (xh & xl' & Hxh & Hxl' & Hc').
    rewrite Hxl in Hxl'. injection Hxl' as <-.
    pose proof (py_lt_false_exact _ _ _ _ Hhi Hv Hxh Hxv A) as Hn.
    assert (Hle : xcompare xv xh <> Gt).
    { rewrite xcompare_antisym. destruct (xcompare xh xv); simpl; congruence. }
    pose proof (xcompare_le_lt_trans _ _ _ Hle Hc') as Hvl.
    rewrite xcompare_antisym, Hvl in Hc. discriminate.
Qed.

(** [C10] [clamp] is idempotent, for all numbers and with no condition on
    the order of the bounds: clamping a clamped value returns it
    unchanged. *)
Theorem clamp_idempotent v lo hi :
  clamp (clamp v lo hi) lo hi = clamp v lo hi.
Proof.
  rewrite !clamp_unfold. cbv zeta.
  destruct (py_lt hi v) eqn:A.
  - destruct (py_lt lo hi) eqn:B.
    + now rewrite py_lt_irrefl, B.
    + destruct (py_lt hi lo) eqn:C.
      * now rewrite B.
      * now rewrite py_lt_irrefl.
  - destruct (py_lt lo v) eqn:B.
    + now rewrite A, B.
    + destruct (py_lt hi lo) eqn:C.
      * destruct (py_lt lo hi) eqn:D; [|reflexivity].
        apply py_lt_asym in C. congruence.
      * now rewrite py_lt_irrefl.
Qed.

(* ================================================================= *)
(** ** is_in_range *)

Section InRange.

Lemma num_eq_sym a b : num_eq a b -> num_eq b a.
Proof.
  intros (x & y & Hx & Hy & Hc). exists y, x. repeat split; trivial.
  now rewrite xcompare_antisym, Hc.
Qed.

Lemma num_eq_not_lt a b :
  wf_number a -> wf_number b -> num_eq a b ->
  py_lt a b = false /\ py_lt b a = false.
Proof.
  intros Ha Hb He. split.
  - apply num_le_py_lt_false; trivial. right. now apply num_eq_sym.
  - apply num_le_py_lt_false; trivial. now right.
Qed.

End InRange.

(** [C3] For well-formed numbers, [is_in_range] with [inclusive=True]
    holds exactly when [lo <= v <= hi], and with [inclusive=False] exactly
    when [lo < v < hi]; in the exclusive case a value at either bound, or
    equal to either bound, is rejected. *)
Theorem is_in_range_spec v lo hi :
  wf_number v -> wf_number lo -> wf_number hi ->
  (is_in_range v lo hi true = true <-> num_le lo v /\ num_le v hi) /\
  (is_in_range v lo hi false = true <-> num_lt lo v /\ num_lt v hi) /\
  is_in_range lo lo hi false = false /\
  is_in_range hi lo hi false = false /\
  (num_eq v lo \/ num_eq v hi -> is_in_range v lo hi false = false).
Proof.
  intros Hv Hlo Hhi. unfold is_in_range.
  split; [|split; [|split; [|split]]].
  - rewrite andb_true_iff, !py_le_spec by trivial. tauto.
  - rewrite andb_true_iff, !py_lt_spec by trivial. tauto.
  - now rewrite py_lt_irrefl.
  - rewrite py_lt_irrefl. apply andb_false_r.
  - intros [He|He].
    + destruct (num_eq_not_lt _ _ Hv Hlo He) as [_ H]. now rewrite H.
    + destruct (num_eq_not_lt _ _ Hv Hhi He) as [H _]. rewrite H.
      apply andb_false_r.
Qed.

(* ================================================================= *)
(** ** validate_length and contains_only_allowed_chars *)

(** [C5] [validate_length] returns false exactly when the text is shorter
    than [min_length], or a maximum is given and the text is longer than
    it; without a maximum only the minimum is checked. *)
Theorem validate_length_spec text min_length max_length :
  (validate_length text min_length max_length = false <->
     len text < min_length \/
     exists n, max_length = Some n /\ len text > n) /\
  (validate_length text min_length max_length = true <->
     ~ len text < min_length /\
     forall n, max_length = Some n -> ~ len text > n) /\
  (validate_length text min_length None = true <-> min_length <= len text).
Proof.
  unfold validate_length.
  destruct (Z.ltb_spec (len text) min_length) as [Hlt|Hge];
    [|destruct max_length as [n|];
      [destruct (Z.gtb_spec (len text) n) as [Hgt|Hle]|]];
    (split; [|split]); split; intro H;
    try discriminate; try reflexivity; try lia;
    try (left; lia);
    try (right; exists n; split; [reflexivity|lia]);
    try (destruct H as [H|(n' & Hn & H)];
         [lia|inversion Hn; subst; lia]);
    try (split; [lia|intros n' Hn; inversion Hn; subst; lia]);
    try (destruct H as [H1 H2]; first [lia|specialize (H2 _ eq_refl); lia]).
Qed.

Section AllowedChars.

Lemma startswith_single hay c :
  startswith hay [c] = match hay with [] => false | d :: _ => (c =? d)%N end.
Proof.
  destruct hay as [|d hay]; simpl; [reflexivity|].
  destruct hay; apply andb_true_r.
Qed.

(** For a one-character string the substring test is membership. *)
Lemma contains_single hay c : contains hay [c] = true <-> In c hay.
Proof.
  induction hay as [|d hay IH].
  - simpl. split; [discriminate|tauto].
  - cbn [contains]. rewrite startswith_single, orb_true_iff, IH.
    rewrite N.eqb_eq. simpl. split; intros [H|H]; auto.
Qed.

End AllowedChars.

(** [C6] [contains_only_allowed_chars] holds exactly when every character
    of the text occurs in [allowed_chars]; it holds for the empty text
    whatever the allowed characters are. *)
Theorem contains_only_allowed_chars_spec text allowed_chars :
  (contains_only_allowed_chars text allowed_chars = true <->
     forall c, In c text -> In c allowed_chars) /\
  contains_only_allowed_chars [] allowed_chars = true.
Proof.
  split; [|reflexivity].
  unfold contains_only_allowed_chars, iter.
  rewrite forallb_forall. split.
  - intros H c Hc. apply contains_single. apply H.
    apply in_map_iff. now exists c.
  - intros H x Hx. apply in_map_iff in Hx. destruct Hx as (c & <- & Hc).
    apply contains_single. now apply H.
Qed.

(* ================================================================= *)
(** ** is_valid_password *)

Section PasswordProps.

Variable unicode_isdecimal : char -> bool.

(** Searching for a single character of a set finds one exactly when the
    string has one. *)
Lemma search_from_IN items s : forall pos,
  re.truth (re.search_from (re.IN items) pos s) = existsb (re.in_set items) s.
Proof.
  induction s as [|d s IH]; intro pos.
  - reflexivity.
  - cbn [re.search_from existsb]. unfold re.match_at. cbn [re.exec].
    destruct (re.in_set items d); simpl; [reflexivity|apply IH].
Qed.

Lemma search_uppercase s :
  re.truth (re.search uppercase_pattern s) = true <->
  Exists ascii_uppercase s.
Proof.
  unfold re.search, uppercase_pattern. rewrite search_from_IN.
  rewrite existsb_exists, Exists_exists.
  split; intros (c & Hin & Hc); exists c; split; trivial.
  - unfold re.in_set in Hc. simpl in Hc. rewrite orb_false_r in Hc.
    apply andb_true_iff in Hc. destruct Hc as [H1 H2].
    apply N.leb_le in H1. apply N.leb_le in H2.
    unfold ascii_uppercase. split; assumption.
  - destruct Hc as [H1 H2]. unfold re.in_set. simpl.
    rewrite orb_false_r. apply andb_true_iff.
    split; now apply N.leb_le.
Qed.

Lemma search_digit s :
  re.truth (re.search (digit_pattern unicode_isdecimal) s) = true <->
  Exists (decimal_digit unicode_isdecimal) s.
Proof.
  unfold re.search, digit_pattern. rewrite search_from_IN.
  rewrite existsb_exists, Exists_exists.
  split; intros (c & Hin & Hc); exists c; split; trivial.
  - unfold re.in_set in Hc. simpl in Hc. now rewrite orb_false_r in Hc.
  - unfold re.in_set. simpl. now rewrite orb_false_r.
Qed.

Lemma not_true_iff_not (b : bool) (P : Prop) :
  (b = true <-> P) -> (negb b = true <-> ~ P).
Proof. destruct b; simpl; intuition congruence. Qed.

(** When [is_valid_password] rejects. *)
Lemma is_valid_password_false password min_length require_number
    require_uppercase :
  is_valid_password unicode_isdecimal password min_length require_number
    require_uppercase = false <->
  len password < min_length \/
  (require_uppercase = true /\ ~ Exists ascii_uppercase password) \/
  (require_number = true /\
   ~ Exists (decimal_digit unicode_isdecimal) password).
Proof.
  unfold is_valid_password.
  pose proof (not_true_iff_not _ _ (search_uppercase password)) as HU.
  pose proof (not_true_iff_not _ _ (search_digit password)) as HD.
  destruct (Z.ltb_spec (len password) min_length) as [Hlt|Hge].
  { split; auto. }
  destruct (require_uppercase &&
            negb (re.truth (re.search uppercase_pattern password))) eqn:EU.
  { apply andb_true_iff in EU. destruct EU as [-> EU].
    split; [|reflexivity]. intros _. right. left. split; [reflexivity|].
    now apply HU. }
  destruct (require_number &&
            negb (re.truth (re.search (digit_pattern unicode_isdecimal)
                              password))) eqn:ED.
  { apply andb_true_iff in ED. destruct ED as [-> ED].
    split; [|reflexivity]. intros _. right. right. split; [reflexivity|].
    now apply HD. }
  split; [discriminate|].
  intros [H|[[-> H]|[-> H]]].
  - lia.
  - apply HU in H. rewrite H in EU. discriminate.
  - apply HD in H. rewrite H in ED. discriminate.
Qed.

End PasswordProps.

(* ================================================================= *)
(** ** is_valid_hex_color *)

Section HexColor.

Lemma in_hex_digit_set c : re.in_set hex_digit_set c = true <-> hex_digit c.
Proof.
  unfold re.in_set, hex_digit_set, hex_digit. simpl.
  rewrite !orb_true_iff, !andb_true_iff, !N.leb_le.
  change (chr "0") with 48%N. change (chr "9") with 57%N.
  change (chr "a") with 97%N. change (chr "f") with 102%N.
  change (chr "A") with 65%N. change (chr "F") with 70%N.
  intuition discriminate.
Qed.

Local Opaque re.in_set.

Ltac crack H :=
  repeat (simpl in H;
    match type of H with
    | context [match ?s with [] => _ | _ :: _ => _ end] =>
        is_var s; destruct s
    | context [if ?b then _ else _] => destruct b eqn:?
    end); simpl in H; try discriminate H.

Lemma is_valid_hex_color_inv color :
  is_valid_hex_color color = true ->
  exists digits tail,
    color = chr "#" :: digits ++ tail /\
    (List.length digits = 3 \/ List.length digits = 6)%nat /\
    Forall (fun c => re.in_set hex_digit_set c = true) digits /\
    (tail = [] \/ tail = [re.newline]).
Proof.
  unfold is_valid_hex_color, re.match_, re.match_at, hex_color_pattern.
  intro H. crack H;
    repeat match goal with
    | E : (_ =? _)%N = true |- _ => apply N.eqb_eq in E; subst
    end;
    match goal with
    | |- exists digits tail, _ :: ?l = _ /\ _ =>
        first
          [ exists l, [];
            split; [reflexivity|];
            split; [(left; reflexivity) || (right; reflexivity)|];
            split; [repeat constructor; assumption|now left]
          | exists (removelast l), [re.newline];
            split; [reflexivity|];
            split; [(left; reflexivity) || (right; reflexivity)|];
            split; [repeat constructor; assumption|now right] ]
    end.
Qed.

Lemma is_valid_hex_color_intro digits tail :
  (List.length digits = 3 \/ List.length digits = 6)%nat ->
  Forall (fun c => re.in_set hex_digit_set c = true) digits ->
  tail = [] \/ tail = [re.newline] ->
  is_valid_hex_color (chr "#" :: digits ++ tail) = true.
Proof.
  intros Hlen Hall Htail.
  unfold is_valid_hex_color, re.match_, re.match_at, hex_color_pattern.
  destruct Hlen as [Hlen|Hlen];
    repeat (destruct digits as [|? digits]; try discriminate Hlen);
    repeat match goal with
    | H : Forall _ (_ :: _) |- _ => inversion H; subst; clear H
    end;
    destruct Htail as [->| ->]; simpl;
    repeat match goal with
    | H : re.in_set _ _ = true |- _ => rewrite H; clear H; simpl
    end;
    try reflexivity.
  all: destruct (re.in_set hex_digit_set re.newline); reflexivity.
Qed.

End HexColor.

(* ================================================================= *)
(** ** The functions over untyped objects *)

Section DynLaws.

Context {world : Type}.

Lemma oblivious_ret {A} (a : A) : Dyn.oblivious (world := world) (Dyn.ret a).
Proof. now exists (Dyn.Return a). Qed.

Lemma oblivious_raise {A} e :
  Dyn.oblivious (world := world) (A := A) (Dyn.raise e).
Proof. now exists (Dyn.Raise e). Qed.

Lemma oblivious_bind {A B} (m : @Dyn.M world A) (f : A -> @Dyn.M world B) :
  Dyn.oblivious m -> (forall a, Dyn.oblivious (f a)) ->
  Dyn.oblivious (Dyn.bind m f).
Proof.
  intros [o Ho] Hf. unfold Dyn.bind. destruct o as [a|e].
  - destruct (Hf a) as [o' Ho']. exists o'. intro w. now rewrite Ho, Ho'.
  - exists (Dyn.Raise e). intro w. now rewrite Ho.
Qed.

Lemma oblivious_if {A} (b : bool) (m1 m2 : @Dyn.M world A) :
  Dyn.oblivious m1 -> Dyn.oblivious m2 ->
  Dyn.oblivious (if b then m1 else m2).
Proof. now destruct b. Qed.

Lemma oblivious_richcmp op a b : Dyn.oblivious (world := world) (Dyn.richcmp op a b).
Proof.
  unfold Dyn.richcmp.
  destruct a, b; first [apply oblivious_ret|apply oblivious_raise].
Qed.

Lemma oblivious_len o : Dyn.oblivious (world := world) (Dyn.len_ o).
Proof. destruct o; first [apply oblivious_ret|apply oblivious_raise]. Qed.

Lemma oblivious_iter o : Dyn.oblivious (world := world) (Dyn.iter_ o).
Proof. destruct o; first [apply oblivious_ret|apply oblivious_raise]. Qed.

Lemma oblivious_contains c i :
  Dyn.oblivious (world := world) (Dyn.contains_ c i).
Proof.
  unfold Dyn.contains_.
  destruct c, i; first [apply oblivious_ret|apply oblivious_raise].
Qed.

Lemma oblivious_all_in chars allowed :
  Dyn.oblivious (world := world) (Dyn.all_in chars allowed).
Proof.
  induction chars as [|c chars IH]; cbn [Dyn.all_in].
  - apply oblivious_ret.
  - apply oblivious_bind; [apply oblivious_contains|].
    intro b. apply oblivious_if; [exact IH|apply oblivious_ret].
Qed.

End DynLaws.

Create HintDb oblivious.

#[local] Hint Resolve oblivious_ret oblivious_raise oblivious_richcmp
  oblivious_len oblivious_iter
  oblivious_contains oblivious_all_in : oblivious.

Ltac oblivious :=
  repeat first
    [ apply oblivious_bind; [|intro]
    | apply oblivious_if
    | solve [auto with oblivious] ].

Section DynFunctions.

Context {world : Type}.

Lemma oblivious_clamp value min_value max_value :
  Dyn.oblivious (world := world) (Dyn.clamp value min_value max_value).
Proof. unfold Dyn.clamp, Dyn.min2, Dyn.max2. oblivious. Qed.

Lemma oblivious_is_in_range value min_val max_val inclusive :
  Dyn.oblivious (world := world)
    (Dyn.is_in_range value min_val max_val inclusive).
Proof. unfold Dyn.is_in_range. oblivious. Qed.

Lemma oblivious_validate_length text min_length max_length :
  Dyn.oblivious (world := world)
    (Dyn.validate_length text min_length max_length).
Proof. unfold Dyn.validate_length. oblivious. Qed.

Lemma oblivious_contains_only_allowed_chars text allowed_chars :
  Dyn.oblivious (world := world)
    (Dyn.contains_only_allowed_chars text allowed_chars).
Proof. unfold Dyn.contains_only_allowed_chars. oblivious. Qed.

End DynFunctions.

(** Running a computation: unfold the monad and the primitive operations. *)
Ltac dyn_run :=
  cbv [Dyn.clamp Dyn.is_valid_password Dyn.is_valid_hex_color
       Dyn.is_in_range Dyn.validate_length Dyn.contains_only_allowed_chars
       Dyn.min2 Dyn.max2 Dyn.len_ Dyn.re_search Dyn.re_match Dyn.iter_
       Dyn.contains_ Dyn.richcmp Dyn.is_not_none
       Dyn.bind Dyn.ret Dyn.raise Dyn.Int].

(** On arguments of the annotated types the untyped functions return what
    the typed functions compute. *)
Section DynTyped.

Context {world : Type}.
Variable unicode_isdecimal : char -> bool.
Variable w : world.

Lemma truth_of_match m : Dyn.truth (Dyn.of_match m) = re.truth m.
Proof. now destruct m. Qed.

Lemma truth_Bool b : Dyn.truth (Dyn.Bool b) = b.
Proof. reflexivity. Qed.

Lemma holds_lt a b : Dyn.holds Dyn.LT (py_compare a b) = py_lt a b.
Proof. unfold py_lt. now destruct (py_compare a b) as [[]|]. Qed.
Lemma holds_le a b : Dyn.holds Dyn.LE (py_compare a b) = py_le a b.
Proof. unfold py_le. now destruct (py_compare a b) as [[]|]. Qed.
Lemma holds_gt a b : Dyn.holds Dyn.GT (py_compare a b) = py_gt a b.
Proof. unfold py_gt. now destruct (py_compare a b) as [[]|]. Qed.

Lemma dyn_clamp_typed value min_value max_value :
  Dyn.clamp (Dyn.Num value) (Dyn.Num min_value) (Dyn.Num max_value) w =
  (Dyn.Return (Dyn.Num (clamp value min_value max_value)), w).
Proof.
  dyn_run. unfold clamp, py_min, py_max. rewrite truth_Bool, holds_lt.
  destruct (py_lt max_value value); rewrite truth_Bool, holds_gt;
    now destruct (py_gt _ min_value).
Qed.

Lemma dyn_is_in_range_typed value min_val max_val inclusive :
  Dyn.is_in_range (Dyn.Num value) (Dyn.Num min_val) (Dyn.Num max_val)
    (Dyn.Bool inclusive) w =
  (Dyn.Return (Dyn.Bool (is_in_range value min_val max_val inclusive)), w).
Proof.
  dyn_run. unfold is_in_range.
  destruct inclusive; rewrite !truth_Bool, ?holds_le, ?holds_lt.
  - now destruct (py_le min_val value).
  - now destruct (py_lt min_val value).
Qed.

Lemma dyn_len_lt s n z :
  Dyn.int_value n = Some z ->
  Dyn.holds Dyn.LT (py_compare (PyInt (len s)) n) = (len s <? z).
Proof.
  destruct n as [x|b|f]; simpl; intro H; inversion H; subst;
    unfold py_compare, Z.ltb; simpl; now destruct (_ ?= _).
Qed.

Lemma dyn_len_gt s n z :
  Dyn.int_value n = Some z ->
  Dyn.holds Dyn.GT (py_compare (PyInt (len s)) n) = (len s >? z).
Proof.
  destruct n as [x|b|f]; simpl; intro H; inversion H; subst;
    unfold py_compare, Z.gtb; simpl; now destruct (_ ?= _).
Qed.


Lemma dyn_is_valid_password_typed password min_length z require_number
    require_uppercase :
  Dyn.int_value min_length = Some z ->
  Dyn.is_valid_password unicode_isdecimal (Dyn.Str password)
    (Dyn.Num min_length) (Dyn.Bool require_number)
    (Dyn.Bool require_uppercase) w =
  (Dyn.Return
     (Dyn.Bool (is_valid_password unicode_isdecimal password z
                  require_number require_uppercase)), w).
Proof.
  intro Hz.
  dyn_run. unfold is_valid_password.
  rewrite !truth_Bool, !truth_of_match, (dyn_len_lt _ _ _ Hz).
  destruct (len password <? z); [reflexivity|].
  destruct require_uppercase; cbn [andb];
    try destruct (negb (re.truth (re.search uppercase_pattern password)));
    try reflexivity;
    destruct require_number; cbn [andb];
    try destruct (negb (re.truth (re.search _ password)));
    reflexivity.
Qed.

Lemma dyn_is_valid_hex_color_typed color :
  Dyn.is_valid_hex_color (Dyn.Str color) w =
  (Dyn.Return (Dyn.Bool (is_valid_hex_color color)), w).
Proof.
  dyn_run. unfold is_valid_hex_color. now rewrite truth_of_match.
Qed.

Lemma dyn_validate_length_typed text min_length z max_length oz :
  Dyn.int_value min_length = Some z ->
  Dyn.optional_int max_length oz ->
  Dyn.validate_length (Dyn.Str text) (Dyn.Num min_length) max_length w =
  (Dyn.Return (Dyn.Bool (validate_length text z oz)), w).
Proof.
  intros Hz Ho.
  destruct max_length as [|n|s|m], oz as [x|]; simpl in Ho;
    try contradiction; dyn_run; unfold validate_length;
    rewrite !truth_Bool, (dyn_len_lt _ _ _ Hz);
    (destruct (len text <? z); [reflexivity|]).
  - reflexivity.
  - rewrite (dyn_len_gt _ _ _ Ho). now destruct (len text >? x).
Qed.

Lemma dyn_all_in_typed chars allowed_chars :
  Dyn.all_in (map Dyn.Str chars) (Dyn.Str allowed_chars) w =
  (Dyn.Return (Dyn.Bool (forallb (contains allowed_chars) chars)), w).
Proof.
  induction chars as [|c chars IH]; [reflexivity|].
  cbn [map Dyn.all_in forallb]. dyn_run. rewrite truth_Bool.
  destruct (contains allowed_chars c); [exact IH|reflexivity].
Qed.

Lemma dyn_contains_only_allowed_chars_typed text allowed_chars :
  Dyn.contains_only_allowed_chars (Dyn.Str text) (Dyn.Str allowed_chars) w =
  (Dyn.Return (Dyn.Bool (contains_only_allowed_chars text allowed_chars)), w).
Proof.
  dyn_run. apply dyn_all_in_typed.
Qed.

End DynTyped.

(* ================================================================= *)
(** ** The claims about the text validators *)

Section HexColorSpec.

(** [is_valid_hex_color] accepts exactly the colour codes and the colour
    codes followed by one newline. *)
Lemma is_valid_hex_color_iff color :
  is_valid_hex_color color = true <->
  exists digits tail,
    color = chr "#" :: digits ++ tail /\
    (List.length digits = 3 \/ List.length digits = 6)%nat /\
    Forall hex_digit digits /\
    (tail = [] \/ tail = [re.newline]).
Proof.
  split.
  - intro H. apply is_valid_hex_color_inv in H.
    destruct H as (digits & tail & Hc & Hl & Hd & Ht).
    exists digits, tail. repeat split; trivial.
    eapply Forall_impl; [|exact Hd]. intros c. apply in_hex_digit_set.
  - intros (digits & tail & -> & Hl & Hd & Ht).
    apply is_valid_hex_color_intro; trivial.
    eapply Forall_impl; [|exact Hd]. intros c. apply in_hex_digit_set.
Qed.

(** Every colour code is accepted. *)
Lemma hex_color_accepted color :
  hex_color color -> is_valid_hex_color color = true.
Proof.
  intros (digits & -> & Hl & Hd). apply is_valid_hex_color_iff.
  exists digits, []. rewrite app_nil_r. auto.
Qed.

(** What is accepted is a colour code, or a colour code and a newline. *)
Lemma accepted_hex_color color :
  is_valid_hex_color color = true ->
  hex_color color \/ exists code, hex_color code /\ color = code ++ [re.newline].
Proof.
  intro H. apply is_valid_hex_color_iff in H.
  destruct H as (digits & tail & -> & Hl & Hd & [-> | ->]).
  - left. exists digits. rewrite app_nil_r. auto.
  - right. exists (chr "#" :: digits). split; [|reflexivity].
    exists digits. auto.
Qed.

End HexColorSpec.

(** [C1] The colour check accepts ["#fff\n"], which is not a [#] followed
    by three or six hexadecimal digits: [$] also matches just before a
    final newline. *)
Theorem is_valid_hex_color_trailing_newline :
  is_valid_hex_color (of_string "#fff" ++ [re.newline]) = true /\
  ~ hex_color (of_string "#fff" ++ [re.newline]).
Proof.
  split; [reflexivity|].
  intros (digits & Heq & [Hl|Hl] & _);
    injection Heq as <-; discriminate Hl.
Qed.

(** [C4] [is_valid_password] returns false when the password is shorter
    than [min_length], or an uppercase letter is required and the password
    has none of [A-Z], or a number is required and the password has no
    decimal digit; otherwise it returns true.  With the default parameters
    it accepts ["Abcdefg1"] and rejects ["abcdefg1"], ["Abcdefgh"] and
    ["Ab1"].  The table of decimal digits is the interpreter's; on ASCII
    its digits are [0-9]. *)
Theorem is_valid_password_spec
    (unicode_isdecimal : char -> bool)
    (ascii_digits : forall c, (c < 128)%N ->
       unicode_isdecimal c = ((48 <=? c) && (c <=? 57))%N)
    password min_length require_number require_uppercase :
  let check := is_valid_password unicode_isdecimal in
  let check_default p :=
    check p default_min_length default_require_number
      default_require_uppercase in
  (check password min_length require_number require_uppercase = false <->
     len password < min_length \/
     (require_uppercase = true /\ ~ Exists ascii_uppercase password) \/
     (require_number = true /\
      ~ Exists (decimal_digit unicode_isdecimal) password)) /\
  (check password min_length require_number require_uppercase = true <->
     ~ (len password < min_length \/
        (require_uppercase = true /\ ~ Exists ascii_uppercase password) \/
        (require_number = true /\
         ~ Exists (decimal_digit unicode_isdecimal) password))) /\
  check_default (of_string "Abcdefg1") = true /\
  check_default (of_string "abcdefg1") = false /\
  check_default (of_string "Abcdefgh") = false /\
  check_default (of_string "Ab1") = false.
Proof.
  intros check check_default.
  pose proof (is_valid_password_false unicode_isdecimal password min_length
                require_number require_uppercase) as Hf.
  fold check in Hf.
  split; [exact Hf|]. split.
  { rewrite <- Hf. destruct (check password _ _ _); split; congruence. }
  unfold check_default, check, is_valid_password, default_min_length,
    default_require_number, default_require_uppercase.
  unfold re.search, uppercase_pattern, digit_pattern.
  rewrite !search_from_IN.
  unfold re.in_set; cbn -[N.leb N.eqb]; rewrite !ascii_digits by reflexivity.
  repeat split; reflexivity.
Qed.

(* ================================================================= *)
(** ** Totality and determinism *)

Section Typing.

Lemma has_type_number o :
  Dyn.has_type o Dyn.TNumber -> exists n, o = Dyn.Num n.
Proof. destruct o; simpl; try contradiction. intros _. now eexists. Qed.

Lemma has_type_bool o :
  Dyn.has_type o Dyn.TBool -> exists b, o = Dyn.Bool b.
Proof.
  destruct o as [|[z|b|f]|s|m]; simpl; try contradiction.
  intros _. now exists b.
Qed.

Lemma has_type_str o : Dyn.has_type o Dyn.TStr -> exists s, o = Dyn.Str s.
Proof. destruct o; simpl; try contradiction. intros _. now eexists. Qed.

Lemma has_type_int o :
  Dyn.has_type o Dyn.TInt ->
  exists n z, o = Dyn.Num n /\ Dyn.int_value n = Some z.
Proof.
  destruct o as [|[z|b|f]|s|m]; simpl; try contradiction; intros _.
  - now exists (PyInt z), z.
  - now exists (PyBool b), (Z.b2z b).
Qed.

Lemma has_type_optional_int o :
  Dyn.has_type o Dyn.TOptionalInt -> exists oz, Dyn.optional_int o oz.
Proof.
  destruct o as [|[z|b|f]|s|m]; simpl; try contradiction; intros _.
  - now exists None.
  - now exists (Some z).
  - now exists (Some (Z.b2z b)).
Qed.

Lemma returns_bool {world} (m : @Dyn.M world Dyn.object) b :
  (forall w, m w = (Dyn.Return (Dyn.Bool b), w)) -> Dyn.returns Dyn.TBool m.
Proof. intros H w. exists (Dyn.Bool b). now rewrite H. Qed.

Lemma oblivious_same_outcome {world A} (m : @Dyn.M world A) w1 w2 :
  Dyn.oblivious m -> Dyn.same_outcome m w1 w2.
Proof. intros [o Ho]. unfold Dyn.same_outcome. now rewrite !Ho. Qed.

(** The property is not void: a computation that writes the state, or one
    that reads it, is not oblivious. *)
Lemma put_not_oblivious : ~ Dyn.oblivious (world := bool) (Dyn.put true).
Proof.
  intros [o Ho]. pose proof (Ho false) as H. unfold Dyn.put in H.
  congruence.
Qed.

Lemma get_not_oblivious : ~ Dyn.oblivious (world := bool) Dyn.get.
Proof.
  intros [o Ho]. pose proof (Ho false) as H0. pose proof (Ho true) as H1.
  unfold Dyn.get in H0, H1. congruence.
Qed.

End Typing.

(** [C7] Every function of the module, called on arguments of its
    annotated types, returns a value of its result type, a number for
    [clamp] and a [bool] for the five others, and raises no exception. *)
Theorem well_typed_calls_return
    {world : Type} (unicode_isdecimal : char -> bool)
    (value min_value max_value inclusive : Dyn.object)
    (password min_length require_number require_uppercase : Dyn.object)
    (color text max_length allowed_chars : Dyn.object) :
  Dyn.has_type value Dyn.TNumber ->
  Dyn.has_type min_value Dyn.TNumber ->
  Dyn.has_type max_value Dyn.TNumber ->
  Dyn.has_type inclusive Dyn.TBool ->
  Dyn.has_type password Dyn.TStr ->
  Dyn.has_type min_length Dyn.TInt ->
  Dyn.has_type require_number Dyn.TBool ->
  Dyn.has_type require_uppercase Dyn.TBool ->
  Dyn.has_type color Dyn.TStr ->
  Dyn.has_type text Dyn.TStr ->
  Dyn.has_type max_length Dyn.TOptionalInt ->
  Dyn.has_type allowed_chars Dyn.TStr ->
  Dyn.returns (world := world) Dyn.TNumber
    (Dyn.clamp value min_value max_value) /\
  Dyn.returns (world := world) Dyn.TBool
    (Dyn.is_valid_password unicode_isdecimal password min_length
       require_number require_uppercase) /\
  Dyn.returns (world := world) Dyn.TBool (Dyn.is_valid_hex_color color) /\
  Dyn.returns (world := world) Dyn.TBool
    (Dyn.is_in_range value min_value max_value inclusive) /\
  Dyn.returns (world := world) Dyn.TBool
    (Dyn.validate_length text min_length max_length) /\
  Dyn.returns (world := world) Dyn.TBool
    (Dyn.contains_only_allowed_chars text allowed_chars).
Proof.
  intros Hv Hlo Hhi Hinc Hpw Hml Hrn Hru Hcol Htxt Hmax Hall.
  apply has_type_number in Hv, Hlo, Hhi.
  destruct Hv as [v ->], Hlo as [lo ->], Hhi as [hi ->].
  apply has_type_bool in Hinc, Hrn, Hru.
  destruct Hinc as [inc ->], Hrn as [rn ->], Hru as [ru ->].
  apply has_type_str in Hpw, Hcol, Htxt, Hall.
  destruct Hpw as [pw ->], Hcol as [col ->], Htxt as [txt ->],
    Hall as [allowed ->].
  apply has_type_int in Hml. destruct Hml as (ml & z & -> & Hz).
  apply has_type_optional_int in Hmax. destruct Hmax as [oz Hoz].
  split; [|split; [|split; [|split; [|split]]]].
  - intro w. eexists. split; [apply dyn_clamp_typed|exact I].
  - eapply returns_bool. intro w.
    apply dyn_is_valid_password_typed. exact Hz.
  - eapply returns_bool. intro w. apply dyn_is_valid_hex_color_typed.
  - eapply returns_bool. intro w. apply dyn_is_in_range_typed.
  - eapply returns_bool. intro w.
    apply dyn_validate_length_typed; [exact Hz|exact Hoz].
  - eapply returns_bool. intro w.
    apply dyn_contains_only_allowed_chars_typed.
Qed.

(* ================================================================= *)
(** ** The pattern cache *)

Section CacheLaws.

Variable compile : str -> option re.pattern.

Lemma str_eqb_eq a b : ReCache.str_eqb a b = true <-> a = b.
Proof.
  revert b. induction a as [|c a IH]; intros [|d b]; simpl;
    try (split; [discriminate|discriminate]); [tauto|].
  rewrite andb_true_iff, N.eqb_eq, IH. split.
  - intros [-> ->]. reflexivity.
  - intro H. injection H as -> ->. auto.
Qed.

Lemma lookup_In key c p :
  ReCache.lookup key c = Some p -> In (key, p) c.
Proof.
  induction c as [|[k q] c IH]; simpl; [discriminate|].
  destruct (ReCache.str_eqb k key) eqn:E.
  - apply str_eqb_eq in E. intro H. injection H as ->. subst k. now left.
  - intro H. right. now apply IH.
Qed.

(** A consistent cache answers as the compiler does. *)
Lemma consistent_lookup key c p :
  ReCache.consistent compile c ->
  ReCache.lookup key c = Some p -> compile key = Some p.
Proof.
  intros Hc Hl. apply lookup_In in Hl.
  unfold ReCache.consistent in Hc. rewrite Forall_forall in Hc.
  exact (Hc _ Hl).
Qed.

Lemma consistent_tl c :
  ReCache.consistent compile c -> ReCache.consistent compile (tl c).
Proof.
  intro H. destruct c as [|e c]; [exact H|]. now inversion H.
Qed.

Lemma consistent_add c key p :
  ReCache.consistent compile c -> compile key = Some p ->
  ReCache.consistent compile (c ++ [(key, p)]).
Proof.
  intros Hc Hp. apply Forall_app. split; [exact Hc|].
  constructor; [exact Hp|constructor].
Qed.

(** In a consistent cache [_compile] returns the compiled pattern, from
    the cache or from the compiler, and the cache stays consistent. *)
Lemma compile_run source p w :
  ReCache.consistent compile w ->
  compile source = Some p ->
  fst (ReCache._compile compile source w) = Dyn.Return p /\
  ReCache.consistent compile (snd (ReCache._compile compile source w)).
Proof.
  intros Hw Hp. unfold ReCache._compile, Dyn.bind, Dyn.get.
  destruct (ReCache.lookup source w) as [q|] eqn:El.
  - pose proof (consistent_lookup _ _ _ Hw El) as Hq.
    rewrite Hp in Hq. injection Hq as <-. now split.
  - rewrite Hp. unfold Dyn.put, Dyn.ret. cbn [fst snd].
    split; [reflexivity|].
    apply consistent_add; [|exact Hp].
    destruct (ReCache.MAXCACHE <=? List.length w)%nat;
      [now apply consistent_tl|exact Hw].
Qed.

(** What a compiler error leaves behind: nothing. *)
Lemma compile_error source w :
  ReCache.lookup source w = None ->
  compile source = None ->
  ReCache._compile compile source w = (Dyn.Raise Dyn.ReError, w).
Proof.
  intros Hl Hp. unfold ReCache._compile, Dyn.bind, Dyn.get.
  now rewrite Hl, Hp.
Qed.

Lemma follows_ret {A} (a : A) :
  ReCache.follows compile (Dyn.ret a) (Dyn.ret a).
Proof. intros w Hw. now split. Qed.

Lemma follows_raise {A} e :
  ReCache.follows compile (A := A) (Dyn.raise e) (Dyn.raise e).
Proof. intros w Hw. now split. Qed.

Lemma follows_bind {A B} m d (f : A -> @Dyn.M ReCache.cache B) g :
  ReCache.follows compile m d ->
  (forall a, ReCache.follows compile (f a) (g a)) ->
  ReCache.follows compile (Dyn.bind m f) (Dyn.bind d g).
Proof.
  intros Hm Hf w Hw. destruct (Hm w Hw) as [Ho Hc].
  unfold Dyn.bind.
  destruct (m w) as [o w']. destruct (d tt) as [o' []].
  simpl in Ho, Hc. subst o'. destruct o as [a|e].
  - now apply Hf.
  - now split.
Qed.

Lemma follows_if {A} (b : bool) (m1 m2 : @Dyn.M ReCache.cache A) d1 d2 :
  ReCache.follows compile m1 d1 -> ReCache.follows compile m2 d2 ->
  ReCache.follows compile (if b then m1 else m2) (if b then d1 else d2).
Proof. now destruct b. Qed.

Lemma follows_len o : ReCache.follows compile (Dyn.len_ o) (Dyn.len_ o).
Proof. destruct o; first [apply follows_ret|apply follows_raise]. Qed.

Lemma follows_richcmp op a b :
  ReCache.follows compile (Dyn.richcmp op a b) (Dyn.richcmp op a b).
Proof.
  unfold Dyn.richcmp.
  destruct a, b; first [apply follows_ret|apply follows_raise].
Qed.

(** Through a consistent cache, [re.search] and [re.match] on a pattern
    text give what the compiled pattern gives. *)
Lemma follows_re_search source p o :
  compile source = Some p ->
  ReCache.follows compile (ReCache.re_search compile source o)
    (Dyn.re_search p o).
Proof.
  intros Hp w Hw. destruct (compile_run source p w Hw Hp) as [Ho Hc].
  unfold ReCache.re_search, Dyn.bind.
  destruct (ReCache._compile compile source w) as [o' w'].
  simpl in Ho, Hc. subst o'. destruct o; now split.
Qed.

Lemma follows_re_match source p o :
  compile source = Some p ->
  ReCache.follows compile (ReCache.re_match compile source o)
    (Dyn.re_match p o).
Proof.
  intros Hp w Hw. destruct (compile_run source p w Hw Hp) as [Ho Hc].
  unfold ReCache.re_match, Dyn.bind.
  destruct (ReCache._compile compile source w) as [o' w'].
  simpl in Ho, Hc. subst o'. destruct o; now split.
Qed.

Variable unicode_isdecimal : char -> bool.

Hypothesis compile_uppercase :
  compile ReCache.uppercase_source = Some uppercase_pattern.
Hypothesis compile_digit :
  compile ReCache.digit_source = Some (digit_pattern unicode_isdecimal).
Hypothesis compile_hex_color :
  compile ReCache.hex_color_source = Some hex_color_pattern.

(** With the cache, the two validators end as they do without it. *)
Lemma follows_is_valid_password password min_length require_number
    require_uppercase :
  ReCache.follows compile
    (ReCache.is_valid_password compile password min_length require_number
       require_uppercase)
    (Dyn.is_valid_password unicode_isdecimal password min_length
       require_number require_uppercase).
Proof.
  unfold ReCache.is_valid_password, Dyn.is_valid_password.
  repeat first
    [ apply follows_bind; [|intro]
    | apply follows_if
    | apply follows_ret
    | apply follows_len
    | apply follows_richcmp
    | apply follows_re_search; assumption ].
Qed.

Lemma follows_is_valid_hex_color color :
  ReCache.follows compile (ReCache.is_valid_hex_color compile color)
    (Dyn.is_valid_hex_color color).
Proof.
  unfold ReCache.is_valid_hex_color, Dyn.is_valid_hex_color.
  apply follows_bind; [now apply follows_re_match|].
  intro m. apply follows_ret.
Qed.

Lemma follows_same_result {A} (m : @Dyn.M ReCache.cache A) d w1 w2 :
  ReCache.follows compile m d ->
  ReCache.consistent compile w1 -> ReCache.consistent compile w2 ->
  ReCache.same_result compile m w1 w2.
Proof.
  intros H H1 H2. destruct (H w1 H1) as [E1 C1].
  destruct (H w2 H2) as [E2 C2]. unfold ReCache.same_result.
  rewrite E1, E2. auto.
Qed.

End CacheLaws.

Section CacheExamples.

(** The parser gives the three literals of the module the patterns of the
    validators. *)
Lemma parse_literals unicode_isdecimal :
  sre_parse.parse unicode_isdecimal ReCache.uppercase_source =
    Some uppercase_pattern /\
  sre_parse.parse unicode_isdecimal ReCache.digit_source =
    Some (digit_pattern unicode_isdecimal) /\
  sre_parse.parse unicode_isdecimal ReCache.hex_color_source =
    Some hex_color_pattern.
Proof. repeat split; reflexivity. Qed.

(** The cache is read: an entry that [re] did not store, here the pattern
    of the uppercase letters under the text of the colour pattern, changes
    the answer for ["#fff"].  Hence the condition that the cache is
    consistent. *)
Lemma cache_is_read unicode_isdecimal :
  fst (ReCache.is_valid_hex_color (sre_parse.parse unicode_isdecimal)
         (Dyn.Str (of_string "#fff"))
         [(ReCache.hex_color_source, uppercase_pattern)]) =
  Dyn.Return (Dyn.Bool false).
Proof. reflexivity. Qed.

(** A full cache loses its oldest entry to the new one. *)
Lemma full_cache_evicts compile source p (w : ReCache.cache) :
  (ReCache.MAXCACHE <= List.length w)%nat ->
  ReCache.lookup source w = None ->
  compile source = Some p ->
  snd (ReCache._compile compile source w) = tl w ++ [(source, p)].
Proof.
  intros Hfull Hl Hp. unfold ReCache._compile, Dyn.bind, Dyn.get.
  rewrite Hl, Hp. unfold Dyn.put, Dyn.ret. cbn [fst snd].
  apply Nat.leb_le in Hfull. now rewrite Hfull.
Qed.

End CacheExamples.

(** [C8] Every function of the module is deterministic: two calls with
    the same arguments, made in any two states of the pattern cache that
    are consistent, end with the same outcome.  [clamp], [is_in_range],
    [validate_length] and [contains_only_allowed_chars] leave the state as
    it was; [is_valid_password] and [is_valid_hex_color] go through the
    pattern cache of [re], which they may change and leave consistent. *)
Theorem calls_deterministic
    (compile : str -> option re.pattern)
    (unicode_isdecimal : char -> bool)
    (value min_value max_value inclusive : Dyn.object)
    (password min_length require_number require_uppercase : Dyn.object)
    (color text max_length allowed_chars : Dyn.object)
    (w1 w2 : ReCache.cache) :
  compile ReCache.uppercase_source = Some uppercase_pattern ->
  compile ReCache.digit_source = Some (digit_pattern unicode_isdecimal) ->
  compile ReCache.hex_color_source = Some hex_color_pattern ->
  ReCache.consistent compile w1 ->
  ReCache.consistent compile w2 ->
  Dyn.same_outcome (Dyn.clamp value min_value max_value) w1 w2 /\
  Dyn.same_outcome (Dyn.is_in_range value min_value max_value inclusive)
    w1 w2 /\
  Dyn.same_outcome (Dyn.validate_length text min_length max_length) w1 w2 /\
  Dyn.same_outcome (Dyn.contains_only_allowed_chars text allowed_chars)
    w1 w2 /\
  ReCache.same_result compile
    (ReCache.is_valid_password compile password min_length require_number
       require_uppercase) w1 w2 /\
  ReCache.same_result compile
    (ReCache.is_valid_hex_color compile color) w1 w2.
Proof.
  intros Hup Hdig Hhex H1 H2.
  split; [|split; [|split; [|split; [|split]]]].
  - apply oblivious_same_outcome, oblivious_clamp.
  - apply oblivious_same_outcome, oblivious_is_in_range.
  - apply oblivious_same_outcome, oblivious_validate_length.
  - apply oblivious_same_outcome, oblivious_contains_only_allowed_chars.
  - eapply follows_same_result; trivial.
    now apply (follows_is_valid_password compile unicode_isdecimal).
  - eapply follows_same_result; trivial.
    now apply follows_is_valid_hex_color.
Qed.

(** The first call of [is_valid_hex_color("#fff")], in an empty cache,
    stores the compiled pattern: the state is not left as it was. *)
Lemma is_valid_hex_color_writes_cache :
  ~ Dyn.same_outcome
      (ReCache.is_valid_hex_color
         (sre_parse.parse (fun c => ((48 <=? c) && (c <=? 57))%N))
         (Dyn.Str (of_string "#fff"))) [] [].
Proof.
  unfold Dyn.same_outcome. intros (_ & H & _).
  vm_compute in H. discriminate H.
Qed.

(** Two calls of each function, the first in an empty cache and the
    second in a cache that holds the colour pattern already. *)
Lemma calls_deterministic_witness :
  let isdecimal := fun c : char => ((48 <=? c) && (c <=? 57))%N in
  let compile := sre_parse.parse isdecimal in
  let w1 : ReCache.cache := [] in
  let w2 : ReCache.cache := [(ReCache.hex_color_source, hex_color_pattern)] in
  Dyn.same_outcome
    (Dyn.clamp (Dyn.Int 7) (Dyn.Int 0) (Dyn.Int 5)) w1 w2 /\
  Dyn.same_outcome
    (Dyn.is_in_range (Dyn.Int 7) (Dyn.Int 0) (Dyn.Int 5) (Dyn.Bool true))
    w1 w2 /\
  Dyn.same_outcome
    (Dyn.validate_length (Dyn.Str (of_string "hello")) (Dyn.Int 8)
       Dyn.None_) w1 w2 /\
  Dyn.same_outcome
    (Dyn.contains_only_allowed_chars (Dyn.Str (of_string "hello"))
       (Dyn.Str (of_string "abc"))) w1 w2 /\
  ReCache.same_result compile
    (ReCache.is_valid_password compile (Dyn.Str (of_string "Abcdefg1"))
       (Dyn.Int 8) (Dyn.Bool true) (Dyn.Bool true)) w1 w2 /\
  ReCache.same_result compile
    (ReCache.is_valid_hex_color compile (Dyn.Str (of_string "#fff"))) w1 w2.
Proof.
  intros isdecimal compile w1 w2.
  apply (calls_deterministic compile isdecimal);
    [reflexivity|reflexivity|reflexivity
    |constructor
    |constructor; [reflexivity|constructor]].
Defined.

(* ================================================================= *)
(** ** Numerically equal arguments

    Python's [==] identifies numbers of different representation: [1],
    [1.0] and [True], or [0.0] and [-0.0].  The range utilities cannot tell
    such arguments apart, up to [==] on the result. *)

Section EqualArguments.

Lemma xcompare_eq x y : xcompare x y = Eq -> x = y.
Proof.
  destruct x as [|a|], y as [|b|]; simpl; try discriminate; trivial.
  intro H. f_equal. now apply Z.compare_eq.
Qed.

Lemma num_eq_exact a b : num_eq a b -> exact a = exact b.
Proof.
  intros (x & y & Hx & Hy & Hc). apply xcompare_eq in Hc. congruence.
Qed.

Lemma py_compare_respects_eq a a' b b' :
  wf_number a -> wf_number a' -> wf_number b -> wf_number b' ->
  num_eq a a' -> num_eq b b' ->
  py_compare a b = py_compare a' b'.
Proof.
  intros Ha Ha' Hb Hb' Ea Eb.
  rewrite !py_compare_exact by trivial. unfold compare_exact.
  now rewrite (num_eq_exact _ _ Ea), (num_eq_exact _ _ Eb).
Qed.

(** [X6] [clamp] cannot tell numerically equal arguments apart: called on
    arguments that are pairwise [==], it returns results that are [==]. *)
Lemma clamp_respects_eq v v' lo lo' hi hi' :
  wf_number v -> wf_number v' -> wf_number lo -> wf_number lo' ->
  wf_number hi -> wf_number hi' ->
  num_eq v v' -> num_eq lo lo' -> num_eq hi hi' ->
  num_eq (clamp v lo hi) (clamp v' lo' hi').
Proof.
  intros Hv Hv' Hlo Hlo' Hhi Hhi' Ev Elo Ehi.
  rewrite !clamp_unfold. cbv zeta. unfold py_lt.
  rewrite (py_compare_respects_eq hi hi' v v') by trivial.
  destruct (py_compare hi' v') as [[]|];
    [ rewrite (py_compare_respects_eq lo lo' v v') by trivial
    | rewrite (py_compare_respects_eq lo lo' hi hi') by trivial
    | rewrite (py_compare_respects_eq lo lo' v v') by trivial
    | rewrite (py_compare_respects_eq lo lo' v v') by trivial ];
    match goal with
    | |- context [py_compare ?a ?b] =>
        destruct (py_compare a b) as [[]|]; assumption
    end.
Qed.

(** [X12] [is_in_range] gives the same answer on arguments that are
    pairwise [==], in either mode. *)
Lemma is_in_range_respects_eq v v' lo lo' hi hi' inclusive :
  wf_number v -> wf_number v' -> wf_number lo -> wf_number lo' ->
  wf_number hi -> wf_number hi' ->
  num_eq v v' -> num_eq lo lo' -> num_eq hi hi' ->
  is_in_range v lo hi inclusive = is_in_range v' lo' hi' inclusive.
Proof.
  intros Hv Hv' Hlo Hlo' Hhi Hhi' Ev Elo Ehi.
  unfold is_in_range, py_le, py_lt.
  rewrite (py_compare_respects_eq lo lo' v v') by trivial.
  now rewrite (py_compare_respects_eq v v' hi hi') by trivial.
Qed.

End EqualArguments.

(* ================================================================= *)
(** ** Characters outside ASCII

    The class [[A-Z]] holds the 26 ASCII capitals only, while [\d] holds
    every decimal digit of the Unicode table. *)

Section BeyondAscii.

Variable unicode_isdecimal : char -> bool.

(** A capital letter outside ASCII, here U+00C9, does not count as
    uppercase. *)
Lemma is_valid_password_latin_capital :
  is_valid_password unicode_isdecimal (201%N :: of_string "bcdefg1")
    default_min_length default_require_number default_require_uppercase
  = false.
Proof.
  apply is_valid_password_false. right. left. split; [reflexivity|].
  intro H. apply Exists_exists in H. destruct H as (c & Hin & Hlo & Hhi).
  simpl in Hin. unfold chr in Hin. simpl in Hin.
  repeat (destruct Hin as [<-|Hin]; [vm_compute in Hlo, Hhi; intuition congruence|]).
  exact Hin.
Qed.

(** A decimal digit outside ASCII, here U+0663 when the table has it,
    counts as a number. *)
Lemma is_valid_password_arabic_digit :
  unicode_isdecimal 1635%N = true ->
  is_valid_password unicode_isdecimal (of_string "Abcdefg" ++ [1635%N])
    default_min_length default_require_number default_require_uppercase
  = true.
Proof.
  intro Hd.
  destruct (is_valid_password unicode_isdecimal _ _ _ _) eqn:E;
    [reflexivity|exfalso].
  apply is_valid_password_false in E. destruct E as [E|[[_ E]|[_ E]]].
  - vm_compute in E. discriminate.
  - apply E. apply Exists_cons_hd. unfold ascii_uppercase.
    vm_compute. intuition discriminate.
  - apply E. apply Exists_exists. exists 1635%N. split; [|exact Hd].
    apply in_or_app. right. now left.
Qed.

End BeyondAscii.

(* ================================================================= *)
(** ** The examples of the specification, and instances of the theorems *)

(** Relations by value between concrete numbers, by computation. *)
Ltac by_value :=
  unfold num_le, num_lt, num_eq, num_rel;
  first
    [ do 2 eexists; split; [reflexivity|split; [reflexivity|reflexivity]]
    | left; do 2 eexists; split; [reflexivity|split; [reflexivity|reflexivity]]
    | right; do 2 eexists; split; [reflexivity|split; [reflexivity|reflexivity]] ].

Section Examples.

Example hex_color_examples :
  is_valid_hex_color (of_string "#fff") = true /\
  is_valid_hex_color (of_string "#ffffff") = true /\
  is_valid_hex_color (of_string "#ff") = false /\
  is_valid_hex_color (of_string "fff") = false.
Proof. repeat split; reflexivity. Qed.

Example validate_length_examples :
  validate_length (of_string "hello") 1 (Some 10) = true /\
  validate_length (of_string "hello") 6 (Some 10) = false /\
  validate_length (of_string "hello") 0 (Some 4) = false /\
  validate_length (of_string "hello") 0 None = true.
Proof. repeat split; reflexivity. Qed.

Example contains_only_allowed_chars_examples :
  contains_only_allowed_chars (of_string "abc") (of_string "abcdef") = true /\
  contains_only_allowed_chars (of_string "abcz") (of_string "abcdef") = false /\
  contains_only_allowed_chars (of_string "") (of_string "anything") = true.
Proof. repeat split; reflexivity. Qed.

(** [1 == 1.0 == True] and [0.0 == -0.0]. *)
Example equal_numbers :
  let one := PyFloat (S754_finite false 4503599627370496 (-52)) in
  py_eq (PyInt 1) one = true /\ py_eq one (PyBool true) = true /\
  py_eq (PyFloat (S754_zero false)) (PyFloat (S754_zero true)) = true /\
  num_eq (PyInt 1) one /\ num_eq one (PyBool true).
Proof. repeat split; try reflexivity; by_value. Qed.

(** An integer is not rounded before it is compared with a float:
    [2 ** 53 + 1 > float(2 ** 53)]. *)
Example exact_mixed_comparison :
  py_gt (PyInt (2 ^ 53 + 1))
        (PyFloat (S754_finite false 4503599627370496 1)) = true.
Proof. reflexivity. Qed.

(** [clamp(1.0, 1, 1.0)] is the integer [1]: equal to the upper bound, but
    not the same object. *)
Example clamp_returns_lower_when_equal :
  let one := PyFloat (S754_finite false 4503599627370496 (-52)) in
  clamp one (PyInt 1) one = PyInt 1.
Proof. reflexivity. Qed.

(** [clamp(nan, 1, 3)] is [1]. *)
Example clamp_nan : clamp (PyFloat S754_nan) (PyInt 1) (PyInt 3) = PyInt 1.
Proof. reflexivity. Qed.

(** An untyped call that raises: [clamp("a", 1, 2)]. *)
Example clamp_type_error :
  Dyn.clamp (Dyn.Str (of_string "a")) (Dyn.Int 1) (Dyn.Int 2) tt =
  (Dyn.Raise Dyn.TypeError, tt).
Proof. reflexivity. Qed.

End Examples.

(** The interval property at [clamp(7.5, 0, 5)]. *)
Lemma clamp_in_range_witness :
  let v := PyFloat (S754_finite false 8444249301319680 (-50)) in
  let lo := PyInt 0 in
  let hi := PyInt 5 in
  num_le lo (clamp v lo hi) /\ num_le (clamp v lo hi) hi /\
  clamp lo lo hi = lo /\
  num_eq (clamp lo lo hi) lo /\
  num_eq (clamp hi lo hi) hi.
Proof.
  intros v lo hi.
  apply (clamp_in_range v lo hi);
    [reflexivity|exact I|exact I|by_value].
Defined.

(** The range check at [is_in_range(1.0, 1, True)]. *)
Lemma is_in_range_spec_witness :
  let v := PyFloat (S754_finite false 4503599627370496 (-52)) in
  let lo := PyInt 1 in
  let hi := PyBool true in
  (is_in_range v lo hi true = true <-> num_le lo v /\ num_le v hi) /\
  (is_in_range v lo hi false = true <-> num_lt lo v /\ num_lt v hi) /\
  is_in_range lo lo hi false = false /\
  is_in_range hi lo hi false = false /\
  (num_eq v lo \/ num_eq v hi -> is_in_range v lo hi false = false).
Proof.
  intros v lo hi.
  apply (is_in_range_spec v lo hi); [reflexivity|exact I|exact I].
Defined.

(** Swapped bounds at [clamp(2, 5, 1.5)]. *)
Lemma clamp_swapped_bounds_witness :
  let v := PyInt 2 in
  let min_value := PyInt 5 in
  let max_value := PyFloat (S754_finite false 6755399441055744 (-52)) in
  clamp v min_value max_value = min_value.
Proof.
  intros v min_value max_value.
  apply (clamp_swapped_bounds v min_value max_value);
    [exact I|exact I|reflexivity|by_value].
Defined.

(** The password check with a table that holds the ASCII digits only, at
    ["Passw0rd"]. *)
Lemma is_valid_password_spec_witness :
  let isdecimal := fun c : char => ((48 <=? c) && (c <=? 57))%N in
  let check := is_valid_password isdecimal in
  let check_default p :=
    check p default_min_length default_require_number
      default_require_uppercase in
  let password := of_string "Passw0rd" in
  (check password 8 true true = false <->
     len password < 8 \/
     (true = true /\ ~ Exists ascii_uppercase password) \/
     (true = true /\ ~ Exists (decimal_digit isdecimal) password)) /\
  (check password 8 true true = true <->
     ~ (len password < 8 \/
        (true = true /\ ~ Exists ascii_uppercase password) \/
        (true = true /\ ~ Exists (decimal_digit isdecimal) password))) /\
  check_default (of_string "Abcdefg1") = true /\
  check_default (of_string "abcdefg1") = false /\
  check_default (of_string "Abcdefgh") = false /\
  check_default (of_string "Ab1") = false.
Proof.
  intros isdecimal check check_default password.
  apply (is_valid_password_spec isdecimal); intros c Hc; reflexivity.
Defined.

(** Calls on arguments of the annotated types, a [bool] standing for an
    [int] among them. *)
Lemma well_typed_calls_return_witness :
  Dyn.returns (world := unit) Dyn.TNumber
    (Dyn.clamp (Dyn.Num (PyFloat (S754_finite false 8444249301319680 (-50))))
       (Dyn.Int 0) (Dyn.Bool true)) /\
  Dyn.returns (world := unit) Dyn.TBool
    (Dyn.is_valid_password (fun c => ((48 <=? c) && (c <=? 57))%N)
       (Dyn.Str (of_string "Abcdefg1")) (Dyn.Int 8)
       (Dyn.Bool true) (Dyn.Bool true)) /\
  Dyn.returns (world := unit) Dyn.TBool
    (Dyn.is_valid_hex_color (Dyn.Str (of_string "#fff"))) /\
  Dyn.returns (world := unit) Dyn.TBool
    (Dyn.is_in_range
       (Dyn.Num (PyFloat (S754_finite false 8444249301319680 (-50))))
       (Dyn.Int 0) (Dyn.Bool true) (Dyn.Bool false)) /\
  Dyn.returns (world := unit) Dyn.TBool
    (Dyn.validate_length (Dyn.Str (of_string "hello")) (Dyn.Int 8)
       Dyn.None_) /\
  Dyn.returns (world := unit) Dyn.TBool
    (Dyn.contains_only_allowed_chars (Dyn.Str (of_string "hello"))
       (Dyn.Str (of_string "abc"))).
Proof.
  apply (well_typed_calls_return (world := unit)); exact I.
Defined.

(* ================================================================= *)
(** * Further properties of the six functions *)

(** ** Reasoning on values

    Numbers that are not NaN have a value, and every comparison between
    them is a comparison of values. *)

Section ByValue.

Lemma num_lt_exact a b x y :
  exact a = Some x -> exact b = Some y ->
  (num_lt a b <-> xcompare x y = Lt).
Proof.
  intros Hx Hy. split.
  - intros (x' & y' & Hx' & Hy' & Hc). congruence.
  - intro Hc. now exists x, y.
Qed.

Lemma num_eq_exact_iff a b x y :
  exact a = Some x -> exact b = Some y ->
  (num_eq a b <-> xcompare x y = Eq).
Proof.
  intros Hx Hy. split.
  - intros (x' & y' & Hx' & Hy' & Hc). congruence.
  - intro Hc. now exists x, y.
Qed.

Lemma num_le_exact a b x y :
  exact a = Some x -> exact b = Some y ->
  (num_le a b <-> xcompare x y <> Gt).
Proof.
  intros Hx Hy. unfold num_le.
  rewrite (num_lt_exact a b x y Hx Hy), (num_eq_exact_iff a b x y Hx Hy).
  destruct (xcompare x y); intuition congruence.
Qed.

Lemma py_lt_exact a b x y :
  wf_number a -> wf_number b ->
  exact a = Some x -> exact b = Some y ->
  py_lt a b = match xcompare x y with Lt => true | _ => false end.
Proof.
  intros Ha Hb Hx Hy. unfold py_lt.
  rewrite (py_compare_exact a b Ha Hb). unfold compare_exact.
  now rewrite Hx, Hy.
Qed.

Lemma py_le_exact a b x y :
  wf_number a -> wf_number b ->
  exact a = Some x -> exact b = Some y ->
  py_le a b = match xcompare x y with Gt => false | _ => true end.
Proof.
  intros Ha Hb Hx Hy. unfold py_le.
  rewrite (py_compare_exact a b Ha Hb). unfold compare_exact.
  rewrite Hx, Hy. now destruct (xcompare x y).
Qed.

Lemma is_nan_exact a : is_nan a = true <-> exact a = None.
Proof.
  unfold exact. destruct a as [z|b|[s|s| |s m e]]; simpl;
    split; intro H; try discriminate; reflexivity.
Qed.

Lemma py_le_nan_l a b : is_nan a = true -> py_le a b = false.
Proof.
  destruct a as [z|p|[]]; try discriminate. intros _.
  unfold py_le, py_compare. simpl.
  destruct (view b) as [y|g]; simpl; [reflexivity|]. now destruct g.
Qed.

Lemma py_le_nan_r a b : is_nan b = true -> py_le a b = false.
Proof.
  destruct b as [z|p|[]]; try discriminate. intros _.
  unfold py_le, py_compare. simpl.
  destruct (view a) as [y|g]; simpl; [reflexivity|]. now destruct g.
Qed.

End ByValue.

(** Order facts on the extended integers, by cases and linear arithmetic. *)
Ltac xorder :=
  repeat match goal with
  | x : xint |- _ => destruct x
  end;
  cbn [xcompare] in *;
  repeat match goal with
  | H : (?a ?= ?b) = Lt |- _ => change (a < b) in H
  | H : (?a ?= ?b) = Gt |- _ => change (a > b) in H
  | H : (?a ?= ?b) = Eq |- _ => apply Z.compare_eq_iff in H
  | H : (?a ?= ?b) <> Gt |- _ => change (a <= b) in H
  | H : (?a ?= ?b) <> Lt |- _ => change (a >= b) in H
  | H : (?a ?= ?b) <> Eq |- _ =>
      assert (a <> b) by (intro; apply H; now apply Z.compare_eq_iff);
      clear H
  | |- (?a ?= ?b) = Lt => change (a < b)
  | |- (?a ?= ?b) = Gt => change (a > b)
  | |- (?a ?= ?b) = Eq => apply Z.compare_eq_iff
  | |- (?a ?= ?b) <> Gt => change (a <= b)
  | |- (?a ?= ?b) <> Lt => change (a >= b)
  end;
  try congruence; try lia.

(** Name the value of every number that has one, and turn the comparisons
    of the context and of the goal into comparisons of values. *)
Ltac value_of a :=
  lazymatch goal with
  | H : exact a = Some _ |- _ => idtac
  | H : is_nan a = false |- _ =>
      let x := fresh "x" in let Hx := fresh "Hx" in
      destruct (exact_of_not_nan a H) as [x Hx]
  end.

Ltac to_values :=
  repeat match goal with
  | H : num_lt ?a ?b |- _ =>
      let N := fresh in
      pose proof (num_rel_not_nan _ _ _ H) as N; destruct N;
      value_of a; value_of b;
      match goal with
      | Ha : exact a = Some ?x, Hb : exact b = Some ?y |- _ =>
          apply (num_lt_exact a b x y Ha Hb) in H
      end
  | H : num_eq ?a ?b |- _ =>
      let N := fresh in
      pose proof (num_rel_not_nan _ _ _ H) as N; destruct N;
      value_of a; value_of b;
      match goal with
      | Ha : exact a = Some ?x, Hb : exact b = Some ?y |- _ =>
          apply (num_eq_exact_iff a b x y Ha Hb) in H
      end
  | H : num_le ?a ?b |- _ =>
      let N := fresh in
      pose proof (num_le_not_nan _ _ H) as N; destruct N;
      value_of a; value_of b;
      match goal with
      | Ha : exact a = Some ?x, Hb : exact b = Some ?y |- _ =>
          apply (num_le_exact a b x y Ha Hb) in H
      end
  end.

Ltac compare_values :=
  repeat match goal with
  | Ha : exact ?a = Some ?x, Hb : exact ?b = Some ?y
    |- context [py_lt ?a ?b] =>
      rewrite (py_lt_exact a b x y) by assumption
  | Ha : exact ?a = Some ?x, Hb : exact ?b = Some ?y
    |- context [py_le ?a ?b] =>
      rewrite (py_le_exact a b x y) by assumption
  end.

Ltac goal_by_value :=
  lazymatch goal with
  | |- num_eq ?a ?a => apply num_eq_refl; assumption
  | |- num_le ?a ?a => right; apply num_eq_refl; assumption
  | |- num_lt ?a ?b =>
      match goal with
      | Ha : exact a = Some ?x, Hb : exact b = Some ?y |- _ =>
          apply (num_lt_exact a b x y Ha Hb)
      end
  | |- num_le ?a ?b =>
      match goal with
      | Ha : exact a = Some ?x, Hb : exact b = Some ?y |- _ =>
          apply (num_le_exact a b x y Ha Hb)
      end
  | |- num_eq ?a ?b =>
      match goal with
      | Ha : exact a = Some ?x, Hb : exact b = Some ?y |- _ =>
          apply (num_eq_exact_iff a b x y Ha Hb)
      end
  | |- _ => idtac
  end.

Ltac split_compare :=
  repeat match goal with
  | |- context [match xcompare ?x ?y with _ => _ end] =>
      let E := fresh "E" in destruct (xcompare x y) eqn:E; cbv iota
  end.

(* ================================================================= *)
(** ** More on clamp *)

Section ClampMore.

Lemma clamp_wf v lo hi :
  wf_number v -> wf_number lo -> wf_number hi -> wf_number (clamp v lo hi).
Proof.
  intros Hv Hlo Hhi.
  destruct (clamp_cases v lo hi) as [-> | [-> | ->]]; assumption.
Qed.

Lemma py_lt_true_not_nan a b :
  py_lt a b = true -> is_nan a = false /\ is_nan b = false.
Proof.
  intro H. split.
  - destruct (is_nan a) eqn:N; [|reflexivity].
    now rewrite (py_lt_nan_l a b N) in H.
  - destruct (is_nan b) eqn:N; [|reflexivity].
    now rewrite (py_lt_nan_r a b N) in H.
Qed.

End ClampMore.

(** [X1] [clamp] hands back one of its three arguments, never a new
    number, and the result is NaN exactly when the lower bound is NaN. *)
Theorem clamp_result_shape v lo hi :
  (clamp v lo hi = v \/ clamp v lo hi = lo \/ clamp v lo hi = hi) /\
  is_nan (clamp v lo hi) = is_nan lo.
Proof.
  split; [apply clamp_cases|].
  rewrite clamp_unfold. cbv zeta.
  destruct (py_lt lo (if py_lt hi v then hi else v)) eqn:E; [|reflexivity].
  apply py_lt_true_not_nan in E. destruct E as [-> ->]. reflexivity.
Qed.

(** [X2] NaN arguments: a NaN value is clamped to the lower bound, a NaN
    lower bound is returned whatever the value is, and a NaN upper bound
    sets no limit, so that [clamp] is the larger of the lower bound and
    the value. *)
Theorem clamp_nan_arguments v lo hi :
  (is_nan v = true -> clamp v lo hi = lo) /\
  (is_nan lo = true -> clamp v lo hi = lo) /\
  (is_nan hi = true -> clamp v lo hi = py_max lo v).
Proof.
  split; [|split]; intro Hn; rewrite clamp_unfold; cbv zeta.
  - now rewrite (py_lt_nan_r hi v Hn), (py_lt_nan_r lo v Hn).
  - now rewrite (py_lt_nan_l lo _ Hn).
  - rewrite (py_lt_nan_l hi v Hn). unfold py_max. now rewrite py_gt_lt.
Qed.

(** [X3] With [lo <= hi], [clamp] by cases: a value at or below the lower
    bound gives the lower bound, a value above it and at most the upper
    bound is returned unchanged, and a value above the upper bound gives a
    number equal to the upper bound, the upper bound itself when the
    bounds differ. *)
Theorem clamp_three_cases v lo hi :
  wf_number v -> wf_number lo -> wf_number hi ->
  num_le lo hi ->
  (num_le v lo -> clamp v lo hi = lo) /\
  (num_lt lo v -> num_le v hi -> clamp v lo hi = v) /\
  (num_lt hi v -> num_eq (clamp v lo hi) hi) /\
  (num_lt hi v -> num_lt lo hi -> clamp v lo hi = hi).
Proof.
  intros Hv Hlo Hhi Hle.
  split; [|split; [|split]]; intros;
    to_values; rewrite clamp_unfold; cbv zeta; compare_values;
    split_compare; compare_values; split_compare;
    try reflexivity; goal_by_value; xorder.
Qed.

(** [X4] When the upper bound is at most the lower bound, equal bounds
    included, [clamp] returns the lower bound for every value. *)
Theorem clamp_degenerate v lo hi :
  wf_number v -> wf_number lo -> wf_number hi ->
  num_le hi lo ->
  clamp v lo hi = lo.
Proof.
  intros Hv Hlo Hhi Hle.
  destruct (is_nan v) eqn:Nv; [now apply clamp_nan_value|].
  to_values. value_of v.
  rewrite clamp_unfold; cbv zeta; compare_values;
    split_compare; compare_values; split_compare;
    try reflexivity; xorder.
Qed.

(** [X5] [clamp] is monotone in the value: for bounds that are not NaN, in
    whatever order, a larger value is never clamped to a smaller
    result. *)
Theorem clamp_monotone v v' lo hi :
  wf_number v -> wf_number v' -> wf_number lo -> wf_number hi ->
  is_nan lo = false -> is_nan hi = false ->
  num_le v v' ->
  num_le (clamp v lo hi) (clamp v' lo hi).
Proof.
  intros Hv Hv' Hlo Hhi Nlo Nhi Hle.
  to_values. value_of lo. value_of hi.
  rewrite !clamp_unfold; cbv zeta; compare_values;
    split_compare; compare_values; split_compare;
    goal_by_value; xorder.
Qed.

(* ================================================================= *)
(** ** clamp and is_in_range together *)

(** [X7] With [lo <= hi], the inclusive range check accepts whatever
    [clamp] returns. *)
Theorem clamp_result_in_range v lo hi :
  wf_number v -> wf_number lo -> wf_number hi ->
  num_le lo hi ->
  is_in_range (clamp v lo hi) lo hi true = true.
Proof.
  intros Hv Hlo Hhi Hle.
  pose proof (clamp_wf v lo hi Hv Hlo Hhi) as Hc.
  unfold is_in_range. apply andb_true_iff. split.
  - apply py_le_spec; trivial. now apply clamp_lower.
  - apply py_le_spec; trivial. now apply clamp_upper.
Qed.

(** [X8] With [lo <= hi], the values the inclusive range check accepts are
    exactly the values [clamp] leaves equal to themselves. *)
Theorem in_range_iff_clamp_fixes v lo hi :
  wf_number v -> wf_number lo -> wf_number hi ->
  num_le lo hi ->
  (is_in_range v lo hi true = true <-> num_eq (clamp v lo hi) v).
Proof.
  intros Hv Hlo Hhi Hle.
  destruct (is_nan v) eqn:Nv.
  - unfold is_in_range. rewrite (py_le_nan_r lo v Nv). simpl.
    split; [discriminate|]. intro H.
    apply num_rel_not_nan in H. destruct H as [_ H]. congruence.
  - to_values. value_of v. unfold is_in_range.
    rewrite clamp_unfold; cbv zeta; compare_values;
      split_compare; compare_values; split_compare;
      simpl; split; intro Hgoal; try discriminate; try reflexivity;
      to_values; goal_by_value; xorder.
Qed.

(* ================================================================= *)
(** ** More on is_in_range *)

(** [X9] Whatever the exclusive check accepts, the inclusive check
    accepts. *)
Theorem is_in_range_exclusive_inclusive v lo hi :
  is_in_range v lo hi false = true -> is_in_range v lo hi true = true.
Proof.
  unfold is_in_range. rewrite !andb_true_iff, !py_le_lt_eq.
  intros [-> ->]. split; reflexivity.
Qed.

(** [X10] A NaN in any position, value or bound, fails the range check in
    both modes. *)
Theorem is_in_range_nan v lo hi inclusive :
  is_nan v || is_nan lo || is_nan hi = true ->
  is_in_range v lo hi inclusive = false.
Proof.
  intro H. apply orb_true_iff in H. destruct H as [H|Nhi].
  - apply orb_true_iff in H. destruct H as [Nv|Nlo];
      unfold is_in_range; destruct inclusive.
    + now rewrite (py_le_nan_r lo v Nv).
    + now rewrite (py_lt_nan_r lo v Nv).
    + now rewrite (py_le_nan_l lo v Nlo).
    + now rewrite (py_lt_nan_l lo v Nlo).
  - unfold is_in_range; destruct inclusive.
    + rewrite (py_le_nan_r v hi Nhi). apply andb_false_r.
    + rewrite (py_lt_nan_r v hi Nhi). apply andb_false_r.
Qed.

(** [X11] With swapped bounds, [hi < lo], the range is empty: the check
    fails for every value in both modes; with equal bounds the exclusive
    range is empty too. *)
Theorem is_in_range_empty v lo hi :
  wf_number v -> wf_number lo -> wf_number hi ->
  num_le hi lo ->
  is_in_range v lo hi false = false /\
  (num_lt hi lo -> is_in_range v lo hi true = false).
Proof.
  intros Hv Hlo Hhi Hle.
  destruct (is_nan v) eqn:Nv.
  - split; [|intros _]; apply is_in_range_nan; now rewrite Nv.
  - split; [|intro Hlt]; to_values; value_of v; unfold is_in_range;
      compare_values; split_compare; try reflexivity; xorder.
Qed.

(** [X13] Widening the range keeps a value in it: what is in range
    between [lo] and [hi] is in range between any [lo' <= lo] and
    [hi' >= hi], in either mode. *)
Theorem is_in_range_widen v lo hi lo' hi' inclusive :
  wf_number v -> wf_number lo -> wf_number hi ->
  wf_number lo' -> wf_number hi' ->
  num_le lo' lo -> num_le hi hi' ->
  is_in_range v lo hi inclusive = true ->
  is_in_range v lo' hi' inclusive = true.
Proof.
  intros Hv Hlo Hhi Hlo' Hhi' Hl Hh.
  destruct (is_nan v) eqn:Nv.
  - rewrite (is_in_range_nan v lo hi); [discriminate|now rewrite Nv].
  - to_values. value_of v. unfold is_in_range. destruct inclusive;
      compare_values; split_compare; try reflexivity; try discriminate;
      intros _; xorder.
Qed.

(* ================================================================= *)
(** ** More on validate_length *)

Section LengthMore.

Lemma len_nonneg (s : str) : 0 <= len s.
Proof. unfold len. lia. Qed.

Lemma len_app (s t : str) : len (s ++ t) = len s + len t.
Proof. unfold len. rewrite length_app. lia. Qed.

Lemma py_le_int a b : py_le (PyInt a) (PyInt b) = (a <=? b).
Proof.
  unfold py_le, py_compare, Z.leb. simpl. now destruct (a ?= b).
Qed.

End LengthMore.

(** [X14] The length check is the inclusive range check on the length:
    with a maximum, [validate_length] is [is_in_range] of [len(text)]
    between the two bounds, and without one it is [min_length <=
    len(text)]. *)
Theorem validate_length_is_in_range text min_length max_length :
  validate_length text min_length (Some max_length) =
    is_in_range (PyInt (len text)) (PyInt min_length) (PyInt max_length)
      true /\
  validate_length text min_length None =
    py_le (PyInt min_length) (PyInt (len text)).
Proof.
  unfold validate_length, is_in_range. rewrite !py_le_int.
  destruct (Z.ltb_spec (len text) min_length) as [H1|H1];
    destruct (Z.leb_spec min_length (len text)) as [H2|H2]; try lia;
    split; try reflexivity.
  destruct (Z.gtb_spec (len text) max_length) as [H3|H3];
    destruct (Z.leb_spec (len text) max_length) as [H4|H4]; try lia;
    reflexivity.
Qed.

(** [X15] Bounds that no length can meet: with a maximum below the
    minimum, or a negative maximum, [validate_length] rejects every
    text. *)
Theorem validate_length_unsatisfiable text min_length n :
  n < min_length \/ n < 0 ->
  validate_length text min_length (Some n) = false.
Proof.
  intro H. unfold validate_length. pose proof (len_nonneg text).
  destruct (Z.ltb_spec (len text) min_length); [reflexivity|].
  destruct (Z.gtb_spec (len text) n); [reflexivity|lia].
Qed.

(** [X16] Equal bounds ask for that exact length. *)
Theorem validate_length_exact text n :
  validate_length text n (Some n) = true <-> len text = n.
Proof.
  unfold validate_length.
  destruct (Z.ltb_spec (len text) n); [split; [discriminate|lia]|].
  destruct (Z.gtb_spec (len text) n); split; intro;
    try discriminate; try lia; reflexivity.
Qed.

(** [X17] With the default bounds, minimum 0 and no maximum, and with any
    minimum that is not positive, every text is accepted. *)
Theorem validate_length_no_bounds text min_length :
  min_length <= 0 -> validate_length text min_length None = true.
Proof.
  intro H. unfold validate_length. pose proof (len_nonneg text).
  destruct (Z.ltb_spec (len text) min_length); [lia|reflexivity].
Qed.

(* ================================================================= *)
(** ** More on contains_only_allowed_chars *)

Section AllowedMore.

Lemma contains_only_allowed_chars_In text allowed_chars :
  contains_only_allowed_chars text allowed_chars = true <->
  forall c, In c text -> In c allowed_chars.
Proof.
  unfold contains_only_allowed_chars, iter.
  rewrite forallb_forall. split.
  - intros H c Hc. apply contains_single. apply H.
    apply in_map_iff. now exists c.
  - intros H x Hx. apply in_map_iff in Hx. destruct Hx as (c & <- & Hc).
    apply contains_single. now apply H.
Qed.

End AllowedMore.

(** [X18] A concatenation is allowed exactly when both parts are. *)
Theorem contains_only_allowed_chars_app text1 text2 allowed_chars :
  contains_only_allowed_chars (text1 ++ text2) allowed_chars =
  contains_only_allowed_chars text1 allowed_chars &&
  contains_only_allowed_chars text2 allowed_chars.
Proof.
  unfold contains_only_allowed_chars, iter.
  now rewrite map_app, forallb_app.
Qed.

(** [X19] The check is a preorder on strings: every text is allowed by
    itself, and a text allowed by [a] is allowed by whatever allows
    [a]. *)
Theorem contains_only_allowed_chars_preorder text a b :
  contains_only_allowed_chars text text = true /\
  (contains_only_allowed_chars text a = true ->
   contains_only_allowed_chars a b = true ->
   contains_only_allowed_chars text b = true).
Proof.
  rewrite !contains_only_allowed_chars_In. split; [tauto|].
  intros H1 H2 c Hc. apply H2, H1, Hc.
Qed.

(** [X20] With no allowed character, only the empty text passes. *)
Theorem contains_only_allowed_chars_none_allowed text :
  contains_only_allowed_chars text [] = true <-> text = [].
Proof.
  rewrite contains_only_allowed_chars_In. split.
  - intro H. destruct text as [|c text]; [reflexivity|].
    destruct (H c (or_introl eq_refl)).
  - intros -> c [].
Qed.

(** [X21] Only the set of allowed characters counts: their order and
    their repetitions in [allowed_chars] do not change the result. *)
Theorem contains_only_allowed_chars_same_set text a b :
  (forall c, In c a <-> In c b) ->
  contains_only_allowed_chars text a = contains_only_allowed_chars text b.
Proof.
  intro H. apply eq_true_iff_eq.
  rewrite !contains_only_allowed_chars_In.
  split; intros Hx c Hc; apply H, Hx, Hc.
Qed.

(* ================================================================= *)
(** ** More on is_valid_password *)

Section PasswordMore.

Variable unicode_isdecimal : char -> bool.

(** The check as one boolean expression. *)
Lemma is_valid_password_eq password min_length require_number
    require_uppercase :
  is_valid_password unicode_isdecimal password min_length require_number
    require_uppercase =
  negb (len password <? min_length) &&
  (negb require_uppercase ||
   existsb (re.in_set [re.RANGE (chr "A") (chr "Z")]) password) &&
  (negb require_number ||
   existsb (re.in_set [re.CATEGORY unicode_isdecimal]) password).
Proof.
  unfold is_valid_password, re.search, uppercase_pattern, digit_pattern.
  rewrite !search_from_IN.
  destruct (len password <? min_length), require_uppercase, require_number,
    (existsb (re.in_set [re.RANGE (chr "A") (chr "Z")]) password),
    (existsb (re.in_set [re.CATEGORY unicode_isdecimal]) password);
    reflexivity.
Qed.

Lemma existsb_middle {A} (f : A -> bool) pre mid post :
  existsb f mid = true -> existsb f (pre ++ mid ++ post) = true.
Proof.
  intro H. rewrite !existsb_app, H. now rewrite orb_true_r.
Qed.

End PasswordMore.

(** [X22] Relaxing the criteria keeps a password valid: a smaller minimum
    length, or a requirement switched off, never turns an accepted
    password into a rejected one. *)
Theorem is_valid_password_relax
    (unicode_isdecimal : char -> bool) password
    min_length min_length' require_number require_number'
    require_uppercase require_uppercase' :
  min_length' <= min_length ->
  (require_number' = true -> require_number = true) ->
  (require_uppercase' = true -> require_uppercase = true) ->
  is_valid_password unicode_isdecimal password min_length require_number
    require_uppercase = true ->
  is_valid_password unicode_isdecimal password min_length' require_number'
    require_uppercase' = true.
Proof.
  intros Hl Hn Hu. rewrite !is_valid_password_eq, !andb_true_iff.
  intros [[H1 H2] H3]. repeat split.
  - apply negb_true_iff in H1. apply negb_true_iff.
    apply Z.ltb_ge in H1. apply Z.ltb_ge. lia.
  - destruct require_uppercase'; [|reflexivity].
    now rewrite (Hu eq_refl) in H2.
  - destruct require_number'; [|reflexivity].
    now rewrite (Hn eq_refl) in H3.
Qed.

(** [X23] Adding characters keeps a password valid: an accepted password
    stays accepted with any text before it and any text after it. *)
Theorem is_valid_password_extend
    (unicode_isdecimal : char -> bool) password before after
    min_length require_number require_uppercase :
  is_valid_password unicode_isdecimal password min_length require_number
    require_uppercase = true ->
  is_valid_password unicode_isdecimal (before ++ password ++ after)
    min_length require_number require_uppercase = true.
Proof.
  rewrite !is_valid_password_eq, !andb_true_iff.
  intros [[H1 H2] H3]. repeat split.
  - apply negb_true_iff in H1. apply negb_true_iff.
    apply Z.ltb_ge in H1. apply Z.ltb_ge. rewrite !len_app.
    pose proof (len_nonneg before). pose proof (len_nonneg after). lia.
  - apply orb_true_iff in H2. apply orb_true_iff.
    destruct H2 as [H2|H2]; [now left|right]. now apply existsb_middle.
  - apply orb_true_iff in H3. apply orb_true_iff.
    destruct H3 as [H3|H3]; [now left|right]. now apply existsb_middle.
Qed.

(** [X24] The password check and the length check: with both requirements
    off [is_valid_password] is [validate_length] without a maximum, and
    with any requirements an accepted password passes that length
    check. *)
Theorem is_valid_password_validate_length
    (unicode_isdecimal : char -> bool) password min_length
    require_number require_uppercase :
  is_valid_password unicode_isdecimal password min_length false false =
    validate_length password min_length None /\
  (is_valid_password unicode_isdecimal password min_length require_number
     require_uppercase = true ->
   validate_length password min_length None = true).
Proof.
  split.
  - unfold is_valid_password, validate_length.
    now destruct (len password <? min_length).
  - unfold is_valid_password, validate_length.
    now destruct (len password <? min_length).
Qed.

(** [X25] A password accepted with both requirements on has at least two
    characters, whatever the minimum length is: no character is both an
    uppercase letter and a digit. *)
Theorem is_valid_password_two_characters
    (unicode_isdecimal : char -> bool) password min_length :
  (forall c, (c < 128)%N ->
     unicode_isdecimal c = ((48 <=? c) && (c <=? 57))%N) ->
  is_valid_password unicode_isdecimal password min_length true true
    = true ->
  2 <= len password.
Proof.
  intros Hascii. rewrite is_valid_password_eq, !andb_true_iff.
  intros [[_ H2] H3]. simpl in H2, H3.
  destruct password as [|c [|d rest]].
  - discriminate.
  - exfalso. unfold re.in_set in H2, H3. simpl in H2, H3.
    rewrite !orb_false_r in H2, H3.
    apply andb_true_iff in H2. destruct H2 as [Ha Hz].
    apply N.leb_le in Ha. apply N.leb_le in Hz.
    change (chr "A") with 65%N in Ha. change (chr "Z") with 90%N in Hz.
    rewrite Hascii in H3 by lia.
    apply andb_true_iff in H3. destruct H3 as [_ H9].
    apply N.leb_le in H9. lia.
  - unfold len. simpl. lia.
Qed.

(* ================================================================= *)
(** ** More on is_valid_hex_color *)

(** [X26] What [is_valid_hex_color] accepts, exactly: the colour codes, a
    [#] followed by three or six hexadecimal digits, and the colour codes
    followed by one newline. *)
Theorem is_valid_hex_color_accepts_exactly color :
  is_valid_hex_color color = true <->
  hex_color color \/
  exists code, hex_color code /\ color = code ++ [re.newline].
Proof.
  split; [apply accepted_hex_color|].
  intros [H|(code & (digits & -> & Hl & Hd) & ->)].
  - now apply hex_color_accepted.
  - apply is_valid_hex_color_iff. exists digits, [re.newline]. auto.
Qed.

(* ================================================================= *)
(** ** Calls on arguments of other types *)

(** [X27] When [allowed_chars] is not a string, the call raises
    [TypeError] for every text but the empty one: on the empty text
    [allowed_chars] is never looked at and the result is [True]. *)
Theorem dyn_allowed_chars_not_str
    {world : Type} (text : str) (allowed_chars : Dyn.object) (w : world) :
  (forall s, allowed_chars <> Dyn.Str s) ->
  Dyn.contains_only_allowed_chars (Dyn.Str text) allowed_chars w =
  (match text with
   | [] => Dyn.Return (Dyn.Bool true)
   | _ :: _ => Dyn.Raise Dyn.TypeError
   end, w).
Proof.
  intro H. destruct text as [|c text]; [reflexivity|].
  destruct allowed_chars as [|n|s|m]; try reflexivity.
  now elim (H s).
Qed.

(** [X28] The four text validators raise [TypeError] when the text is
    [None], a number or a match object, whatever the other arguments
    are. *)
Theorem dyn_text_not_str
    {world : Type} (unicode_isdecimal : char -> bool)
    (text a b c : Dyn.object) (w : world) :
  (forall s, text <> Dyn.Str s) ->
  Dyn.is_valid_password unicode_isdecimal text a b c w =
    (Dyn.Raise Dyn.TypeError, w) /\
  Dyn.is_valid_hex_color text w = (Dyn.Raise Dyn.TypeError, w) /\
  Dyn.validate_length text a b w = (Dyn.Raise Dyn.TypeError, w) /\
  Dyn.contains_only_allowed_chars text a w = (Dyn.Raise Dyn.TypeError, w).
Proof.
  intro H. destruct text as [|n|s|m]; try (now elim (H s));
    repeat split; reflexivity.
Qed.

(* ================================================================= *)
(** ** Instances *)

Section Instances.

Let one : number := PyFloat (S754_finite false 4503599627370496 (-52)).
Let one_and_half : number :=
  PyFloat (S754_finite false 6755399441055744 (-52)).
Let seven_and_half : number :=
  PyFloat (S754_finite false 8444249301319680 (-50)).
Let minus_zero : number := PyFloat (S754_zero true).
Let nan : number := PyFloat S754_nan.
Let ascii_isdecimal (c : char) : bool := ((48 <=? c) && (c <=? 57))%N.

(** [clamp] by cases between [0] and [5]. *)
Lemma clamp_three_cases_witness :
  (num_le one (PyInt 0) -> clamp one (PyInt 0) (PyInt 5) = PyInt 0) /\
  (num_lt (PyInt 0) one -> num_le one (PyInt 5) ->
   clamp one (PyInt 0) (PyInt 5) = one) /\
  (num_lt (PyInt 5) one ->
   num_eq (clamp one (PyInt 0) (PyInt 5)) (PyInt 5)) /\
  (num_lt (PyInt 5) one -> num_lt (PyInt 0) (PyInt 5) ->
   clamp one (PyInt 0) (PyInt 5) = PyInt 5).
Proof.
  apply (clamp_three_cases one (PyInt 0) (PyInt 5));
    [reflexivity|exact I|exact I|by_value].
Defined.

(** Equal bounds: [clamp(7.5, 1, 1.0)]. *)
Lemma clamp_degenerate_witness :
  clamp seven_and_half (PyInt 1) one = PyInt 1.
Proof.
  apply (clamp_degenerate seven_and_half (PyInt 1) one);
    [reflexivity|exact I|reflexivity|by_value].
Defined.

(** [1.5 <= 7.5] between swapped bounds [5] and [1]. *)
Lemma clamp_monotone_witness :
  num_le (clamp one_and_half (PyInt 5) (PyInt 1))
         (clamp seven_and_half (PyInt 5) (PyInt 1)).
Proof.
  apply (clamp_monotone one_and_half seven_and_half (PyInt 5) (PyInt 1));
    [reflexivity|reflexivity|exact I|exact I|reflexivity|reflexivity
    |by_value].
Defined.

(** [clamp(1, False, 5)] and [clamp(1.0, -0.0, 5)]. *)
Lemma clamp_respects_eq_witness :
  num_eq (clamp (PyInt 1) (PyBool false) (PyInt 5))
         (clamp one minus_zero (PyInt 5)).
Proof.
  apply (clamp_respects_eq (PyInt 1) one (PyBool false) minus_zero
           (PyInt 5) (PyInt 5));
    [exact I|reflexivity|exact I|reflexivity|exact I|exact I
    |by_value|by_value|by_value].
Defined.

Lemma clamp_result_in_range_witness :
  is_in_range (clamp seven_and_half (PyInt 0) (PyInt 5)) (PyInt 0) (PyInt 5)
    true = true.
Proof.
  apply (clamp_result_in_range seven_and_half (PyInt 0) (PyInt 5));
    [reflexivity|exact I|exact I|by_value].
Defined.

Lemma in_range_iff_clamp_fixes_witness :
  is_in_range one (PyInt 1) (PyInt 5) true = true <->
  num_eq (clamp one (PyInt 1) (PyInt 5)) one.
Proof.
  apply (in_range_iff_clamp_fixes one (PyInt 1) (PyInt 5));
    [reflexivity|exact I|exact I|by_value].
Defined.

Lemma is_in_range_exclusive_inclusive_witness :
  is_in_range one_and_half (PyInt 1) (PyInt 2) true = true.
Proof.
  apply (is_in_range_exclusive_inclusive one_and_half (PyInt 1) (PyInt 2)).
  reflexivity.
Defined.

Lemma is_in_range_nan_witness :
  is_in_range (PyInt 1) (PyInt 0) nan true = false.
Proof.
  apply (is_in_range_nan (PyInt 1) (PyInt 0) nan true). reflexivity.
Defined.

Lemma is_in_range_empty_witness :
  is_in_range one (PyInt 1) one false = false /\
  (num_lt one (PyInt 1) -> is_in_range one (PyInt 1) one true = false).
Proof.
  apply (is_in_range_empty one (PyInt 1) one);
    [reflexivity|exact I|reflexivity|by_value].
Defined.

Lemma is_in_range_respects_eq_witness :
  is_in_range (PyInt 1) (PyBool false) (PyInt 5) true =
  is_in_range one minus_zero (PyInt 5) true.
Proof.
  apply (is_in_range_respects_eq (PyInt 1) one (PyBool false) minus_zero
           (PyInt 5) (PyInt 5) true);
    [exact I|reflexivity|exact I|reflexivity|exact I|exact I
    |by_value|by_value|by_value].
Defined.

Lemma is_in_range_widen_witness :
  is_in_range one_and_half (PyInt 0) seven_and_half false = true.
Proof.
  apply (is_in_range_widen one_and_half one (PyInt 5) (PyInt 0)
           seven_and_half false);
    [reflexivity|reflexivity|exact I|exact I|reflexivity
    |by_value|by_value|reflexivity].
Defined.

Lemma validate_length_unsatisfiable_witness :
  validate_length (of_string "hello") 6 (Some 3) = false.
Proof.
  apply (validate_length_unsatisfiable (of_string "hello") 6 3). lia.
Defined.

Lemma validate_length_no_bounds_witness :
  validate_length (of_string "hello") 0 None = true.
Proof.
  apply (validate_length_no_bounds (of_string "hello") 0). lia.
Defined.

Lemma contains_only_allowed_chars_same_set_witness :
  contains_only_allowed_chars (of_string "abba") (of_string "ab") =
  contains_only_allowed_chars (of_string "abba") (of_string "bba").
Proof.
  apply (contains_only_allowed_chars_same_set (of_string "abba")
           (of_string "ab") (of_string "bba")).
  intro c. simpl. tauto.
Defined.

Lemma is_valid_password_relax_witness :
  is_valid_password ascii_isdecimal (of_string "Passw0rd") 4 false true
    = true.
Proof.
  apply (is_valid_password_relax ascii_isdecimal (of_string "Passw0rd")
           8 4 true false true true);
    [lia|discriminate|reflexivity|reflexivity].
Defined.

Lemma is_valid_password_extend_witness :
  is_valid_password ascii_isdecimal
    (of_string "my" ++ of_string "Passw0rd" ++ of_string "!") 8 true true
    = true.
Proof.
  apply (is_valid_password_extend ascii_isdecimal (of_string "Passw0rd")
           (of_string "my") (of_string "!") 8 true true).
  reflexivity.
Defined.

Lemma is_valid_password_two_characters_witness :
  2 <= len (of_string "A1").
Proof.
  apply (is_valid_password_two_characters ascii_isdecimal (of_string "A1")
           0); [intros c Hc; reflexivity|reflexivity].
Defined.

Lemma dyn_allowed_chars_not_str_witness :
  Dyn.contains_only_allowed_chars (Dyn.Str (of_string "abc")) (Dyn.Int 5) tt
  = (Dyn.Raise Dyn.TypeError, tt).
Proof.
  apply (dyn_allowed_chars_not_str (of_string "abc") (Dyn.Int 5) tt).
  intros s H. discriminate H.
Defined.

Lemma dyn_text_not_str_witness :
  Dyn.is_valid_password ascii_isdecimal Dyn.None_ (Dyn.Int 8)
    (Dyn.Bool true) (Dyn.Bool true) tt = (Dyn.Raise Dyn.TypeError, tt) /\
  Dyn.is_valid_hex_color Dyn.None_ tt = (Dyn.Raise Dyn.TypeError, tt) /\
  Dyn.validate_length Dyn.None_ (Dyn.Int 8) (Dyn.Bool true) tt =
    (Dyn.Raise Dyn.TypeError, tt) /\
  Dyn.contains_only_allowed_chars Dyn.None_ (Dyn.Int 8) tt =
    (Dyn.Raise Dyn.TypeError, tt).
Proof.
  apply (dyn_text_not_str ascii_isdecimal Dyn.None_ (Dyn.Int 8)
           (Dyn.Bool true) (Dyn.Bool true) tt).
  intros s H. discriminate H.
Defined.

End Instances.
